(** * CoreDB SQL notebook: the execution orchestration of [App.tsx]

    A shallow embedding of the state and callbacks of the [App] component
    (frontend/src/App.tsx): the cell store, the history log, the table
    cache, and the asynchronous callbacks [executeCell], [executeAllCells],
    [loadTables], [addCell], [deleteCell].

    - React state is an explicit record [State]; every [setX(prev => ...)]
      call is an event carrying a first-order description of its updater,
      applied to the live state in call order.
    - A callback created by [useCallback] reads the [cells] of the render
      that created it.  That closure value is an explicit argument
      ([cells]) of the embedded callback, distinct from the live store.
    - [await] is a suspension point: the environment decides what the
      awaited promise settles to and what else runs on the event loop in
      the meantime (responses of table fetches in flight, user commands).
    - Strings are 8-bit character strings; [trim] and [toUpperCase] are
      the JavaScript functions restricted to ASCII text. *)

From Stdlib Require Import List String Ascii Bool ZArith QArith Lia Arith.
From Stdlib Require Import DecimalString DecimalZ.
Import ListNotations.

Local Open Scope string_scope.
Local Open Scope Z_scope.

(** ** JavaScript strings and arrays used by the component *)

Module JS.

(** White space and line terminators stripped by [String.prototype.trim],
    ASCII range: TAB, LF, VT, FF, CR, SPACE. *)
Definition isWhiteSpace (c : ascii) : bool :=
  let n := nat_of_ascii c in
  ((9 <=? n) && (n <=? 13) || (n =? 32))%nat.

Fixpoint trimStart (s : string) : string :=
  match s with
  | EmptyString => EmptyString
  | String c s' => if isWhiteSpace c then trimStart s' else s
  end.

Fixpoint trimEnd (s : string) : string :=
  match s with
  | EmptyString => EmptyString
  | String c s' =>
      match trimEnd s' with
      | EmptyString => if isWhiteSpace c then EmptyString else String c EmptyString
      | t => String c t
      end
  end.

Definition trim (s : string) : string := trimEnd (trimStart s).

Definition upperChar (c : ascii) : ascii :=
  let n := nat_of_ascii c in
  if ((97 <=? n) && (n <=? 122))%nat then ascii_of_nat (n - 32) else c.

Fixpoint toUpperCase (s : string) : string :=
  match s with
  | EmptyString => EmptyString
  | String c s' => String (upperChar c) (toUpperCase s')
  end.

(** [s.startsWith(searchString)] *)
Definition startsWith (s searchString : string) : bool := prefix searchString s.

(** Truthiness of a string value: only the empty string is falsy. *)
Definition truthy (s : string) : bool :=
  match s with EmptyString => false | _ => true end.

(** [a || b] on possibly undefined/null strings. *)
Definition or_else (a : option string) (b : option string) : option string :=
  match a with
  | Some s => if truthy s then a else b
  | None => b
  end.

(** [arr.slice(start, end)] with the relative-index rule for negative
    arguments. *)
Definition slice {A : Type} (start end_ : Z) (arr : list A) : list A :=
  let len := Z.of_nat (List.length arr) in
  let k := if start <? 0 then Z.max (len + start) 0 else Z.min start len in
  let final := if end_ <? 0 then Z.max (len + end_) 0 else Z.min end_ len in
  firstn (Z.to_nat (Z.max (final - k) 0)) (skipn (Z.to_nat k) arr).

(** Template-literal rendering of an integer number. *)
Definition string_of_Z (z : Z) : string := NilZero.string_of_int (Z.to_int z).

(** JSON data of type [any]. *)
#[warnings="-register-all"] Inductive any : Type :=
| Null
| Boolean (b : bool)
| Number (q : Q)
| Str (s : string)
| Array (l : list any)
| Object (l : list (string * any)).

End JS.

(** ** Types of App.tsx *)

Module QueryResult.
Record t : Type := mk {
  success : bool;
  result : option (list JS.any);
  columns : option (list string);
  time_ms : Q;
  message : option string;
  error : option string;
  affected_rows : option Z
}.
End QueryResult.

Module QueryHistory.
Record t : Type := mk {
  query : string;
  timestamp : Q;
  success : bool;
  time_ms : Q;
  affected_rows : option Z
}.
End QueryHistory.

Module Cell.
Record t : Type := mk {
  id : string;
  query : string;
  result : option QueryResult.t;
  isExecuting : bool;
  isCollapsed : bool
}.
End Cell.

Module Column.
Record t : Type := mk {
  name : string;
  type : string;
  nullable : bool;
  primary_key : bool;
  foreign_key : option string
}.
End Column.

Module ForeignKey.
Record t : Type := mk {
  column : string;
  references_table : string;
  references_column : string
}.
End ForeignKey.

Module TableInfo.
Record t : Type := mk {
  name : string;
  columns : list Column.t;
  primary_key : option string;
  foreign_keys : list ForeignKey.t;
  row_count : Z
}.
End TableInfo.

(** The fields of [config] (config.ts) that the component reads. *)
Module Config.
Record t : Type := mk {
  API_BASE_URL : string;
  DEFAULT_QUERY : string;
  MAX_HISTORY_ITEMS : Z
}.
End Config.

(** The values documented in the README. *)
Definition default_config : Config.t :=
  {| Config.API_BASE_URL := "http://localhost:8000";
     Config.DEFAULT_QUERY := "SELECT * FROM users;";
     Config.MAX_HISTORY_ITEMS := 20 |}.

(** ** Component state *)

Record State : Type := mkState {
  cells : list Cell.t;
  history : list QueryHistory.t;
  isRunningAll : bool;
  tables : list TableInfo.t;
  isLoadingTables : bool
}.

(** [useState] initial values. *)
Definition initial_cells (config : Config.t) : list Cell.t :=
  [ {| Cell.id := "cell-1";
       Cell.query := Config.DEFAULT_QUERY config;
       Cell.result := None;
       Cell.isExecuting := false;
       Cell.isCollapsed := false |} ].

Definition initial_state (config : Config.t) : State :=
  {| cells := initial_cells config;
     history := [];
     isRunningAll := false;
     tables := [];
     isLoadingTables := false |}.

(** ** Updaters passed to the state setters

    Each constructor is one [prev => ...] function (or plain value) that
    App.tsx passes to [setCells] / [setHistory]. *)

Inductive CellsUpdate : Type :=
| MarkExecuting (cellId : string)
    (* prev.map(c => c.id === cellId ? {...c, isExecuting: true, result: null} : c) *)
| AttachResult (cellId : string) (r : QueryResult.t)
    (* prev.map(c => c.id === cellId ? {...c, result, isExecuting: false} : c) *)
| Append (newCell : Cell.t)
    (* [...prev, newCell] *)
| Remove (cellId : string)
    (* prev.filter(c => c.id !== cellId) *)
| SetQuery (cellId : string) (query : string)
    (* prev.map(c => c.id === cellId ? {...c, query} : c) *)
| ToggleCollapse (cellId : string)
    (* prev.map(c => c.id === cellId ? {...c, isCollapsed: !c.isCollapsed} : c) *)
| ClearResults.
    (* prev.map(c => ({...c, result: null})) *)

Definition with_executing (c : Cell.t) : Cell.t :=
  {| Cell.id := Cell.id c; Cell.query := Cell.query c; Cell.result := None;
     Cell.isExecuting := true; Cell.isCollapsed := Cell.isCollapsed c |}.

Definition with_result (r : QueryResult.t) (c : Cell.t) : Cell.t :=
  {| Cell.id := Cell.id c; Cell.query := Cell.query c; Cell.result := Some r;
     Cell.isExecuting := false; Cell.isCollapsed := Cell.isCollapsed c |}.

Definition with_query (q : string) (c : Cell.t) : Cell.t :=
  {| Cell.id := Cell.id c; Cell.query := q; Cell.result := Cell.result c;
     Cell.isExecuting := Cell.isExecuting c; Cell.isCollapsed := Cell.isCollapsed c |}.

Definition with_collapse_flipped (c : Cell.t) : Cell.t :=
  {| Cell.id := Cell.id c; Cell.query := Cell.query c; Cell.result := Cell.result c;
     Cell.isExecuting := Cell.isExecuting c;
     Cell.isCollapsed := negb (Cell.isCollapsed c) |}.

Definition without_result (c : Cell.t) : Cell.t :=
  {| Cell.id := Cell.id c; Cell.query := Cell.query c; Cell.result := None;
     Cell.isExecuting := Cell.isExecuting c; Cell.isCollapsed := Cell.isCollapsed c |}.

Definition on_cell (cellId : string) (f : Cell.t -> Cell.t) (c : Cell.t) : Cell.t :=
  if (Cell.id c =? cellId)%string then f c else c.

Definition apply_cells (u : CellsUpdate) (prev : list Cell.t) : list Cell.t :=
  match u with
  | MarkExecuting cellId => map (on_cell cellId with_executing) prev
  | AttachResult cellId r => map (on_cell cellId (with_result r)) prev
  | Append newCell => prev ++ [newCell]
  | Remove cellId => filter (fun c => negb (Cell.id c =? cellId)%string) prev
  | SetQuery cellId q => map (on_cell cellId (with_query q)) prev
  | ToggleCollapse cellId => map (on_cell cellId with_collapse_flipped) prev
  | ClearResults => map without_result prev
  end.

Inductive HistoryUpdate : Type :=
| Prepend (MAX_HISTORY_ITEMS : Z) (historyItem : QueryHistory.t)
    (* prev => [historyItem, ...prev.slice(0, config.MAX_HISTORY_ITEMS - 1)] *)
| Replace (queries : list QueryHistory.t)
    (* setHistory(data.queries || []) and setHistory([]) *).

Definition apply_history (u : HistoryUpdate) (prev : list QueryHistory.t)
  : list QueryHistory.t :=
  match u with
  | Prepend H historyItem => historyItem :: JS.slice 0 (H - 1) prev
  | Replace queries => queries
  end.

(** ** Requests, events and the environment *)

(** What the 'execute' request settles to: the promise of [axios.post]
    resolves with [response.data], or rejects (network failure, status
    outside 2xx) with an error object. *)
Module AxiosError.
Record t : Type := mk {
  response_data_error : option string;   (* error.response?.data?.error *)
  message : option string                (* error.message *)
}.
End AxiosError.

Inductive Outcome : Type :=
| Resolved (data : QueryResult.t)
| Rejected (error : AxiosError.t).

(** Payload of the 'tables' request. *)
Module TablesData.
Record t : Type := mk {
  success : bool;
  tables : list TableInfo.t
}.
End TablesData.

(** Everything the component does that is visible outside the callback
    that does it, in program order. *)
Inductive Event : Type :=
| SetCells (u : CellsUpdate)
| SetHistory (u : HistoryUpdate)
| SetTables (ts : list TableInfo.t)
| SetIsLoadingTables (b : bool)
| SetIsRunningAll (b : bool)
| PostExecute (query session_id : string)   (* POST /api/v1/execute *)
| GetTables                                 (* GET /api/v1/tables *)
| SetTimeout (ms : Z).                      (* new Promise(r => setTimeout(r, ms)) *)

(** What can run on the event loop while a callback is suspended at an
    [await]. *)
Inductive Interrupt : Type :=
| TablesSettle (response : option TablesData.t)
    (* a 'tables' request in flight resolves with data, or rejects *)
| ClickAddCell (now : Z)
| ClickDeleteCell (cellId : string)
| EditQuery (cellId : string) (query : string)
| ClickToggleCollapse (cellId : string).

(** The environment of a run, indexed by the number of suspension points
    passed so far. *)
Record Env : Type := mkEnv {
  settle_post : nat -> Outcome;          (* what the n-th await gets, if it awaits a POST *)
  meanwhile : nat -> list Interrupt;     (* what runs during the n-th await *)
  date_now : nat -> Z                    (* Date.now() after n awaits *)
}.

Record World : Type := mkWorld {
  state : State;
  trace : list Event;
  tables_in_flight : nat;
  awaits : nat
}.

(** ** The callback monad *)

Definition M (A : Type) : Type := World -> A * World.

Definition ret {A : Type} (a : A) : M A := fun w => (a, w).

Definition bind {A B : Type} (m : M A) (k : A -> M B) : M B :=
  fun w => let (a, w') := m w in k a w'.

Notation "x <- m ;; k" := (bind m (fun x => k))
  (at level 61, m at next level, right associativity).
Notation "m ;; k" := (bind m (fun _ => k))
  (at level 61, right associativity).

Definition exec {A : Type} (m : M A) (w : World) : World := snd (m w).

Definition emit (e : Event) : M unit :=
  fun w => (tt, {| state := state w; trace := trace w ++ [e];
                   tables_in_flight := tables_in_flight w; awaits := awaits w |}).

Definition modify (f : State -> State) : M unit :=
  fun w => (tt, {| state := f (state w); trace := trace w;
                   tables_in_flight := tables_in_flight w; awaits := awaits w |}).

Definition set_cells (cs : list Cell.t) (s : State) : State :=
  {| cells := cs; history := history s; isRunningAll := isRunningAll s;
     tables := tables s; isLoadingTables := isLoadingTables s |}.

Definition set_history (h : list QueryHistory.t) (s : State) : State :=
  {| cells := cells s; history := h; isRunningAll := isRunningAll s;
     tables := tables s; isLoadingTables := isLoadingTables s |}.

Definition set_tables (ts : list TableInfo.t) (s : State) : State :=
  {| cells := cells s; history := history s; isRunningAll := isRunningAll s;
     tables := ts; isLoadingTables := isLoadingTables s |}.

Definition set_isLoadingTables (b : bool) (s : State) : State :=
  {| cells := cells s; history := history s; isRunningAll := isRunningAll s;
     tables := tables s; isLoadingTables := b |}.

Definition set_isRunningAll (b : bool) (s : State) : State :=
  {| cells := cells s; history := history s; isRunningAll := b;
     tables := tables s; isLoadingTables := isLoadingTables s |}.

(** The state setters. *)
Definition setCells (u : CellsUpdate) : M unit :=
  emit (SetCells u) ;; modify (fun s => set_cells (apply_cells u (cells s)) s).

Definition setHistory (u : HistoryUpdate) : M unit :=
  emit (SetHistory u) ;; modify (fun s => set_history (apply_history u (history s)) s).

Definition setTables (ts : list TableInfo.t) : M unit :=
  emit (SetTables ts) ;; modify (set_tables ts).

Definition setIsLoadingTables (b : bool) : M unit :=
  emit (SetIsLoadingTables b) ;; modify (set_isLoadingTables b).

Definition setIsRunningAll (b : bool) : M unit :=
  emit (SetIsRunningAll b) ;; modify (set_isRunningAll b).

Definition get_cells : M (list Cell.t) := fun w => (cells (state w), w).

Fixpoint for_of {A : Type} (l : list A) (body : A -> M unit) : M unit :=
  match l with
  | [] => ret tt
  | x :: rest => body x ;; for_of rest body
  end.

(** ** The callbacks of [App] *)

Section App.

Variable config : Config.t.
Variable sessionId : string.
Variable env : Env.

Definition Date_now : M Z := fun w => (date_now env (awaits w), w).

(** [loadTables], up to its [await axios.get]: no caller awaits the
    returned promise, so this is all that runs at the call. *)
Definition loadTables : M unit :=
  setIsLoadingTables true ;;
  emit GetTables ;;
  fun w => (tt, {| state := state w; trace := trace w;
                   tables_in_flight := S (tables_in_flight w); awaits := awaits w |}).

(** [loadTables], after its [await]: try-rest, catch and finally. *)
Definition loadTables_resume (response : option TablesData.t) : M unit :=
  match response with
  | Some data =>
      if TablesData.success data then setTables (TablesData.tables data) else ret tt
  | None => ret tt
  end ;;
  setIsLoadingTables false.

Definition addCell (now : Z) : M unit :=
  let newCell :=
    {| Cell.id := "cell-" ++ JS.string_of_Z now;
       Cell.query := "";
       Cell.result := None;
       Cell.isExecuting := false;
       Cell.isCollapsed := false |} in
  setCells (Append newCell).

Definition deleteCell (cells : list Cell.t) (cellId : string) : M unit :=
  if (List.length cells <=? 1)%nat then ret tt
  else setCells (Remove cellId).

Definition updateCellQuery (cellId query : string) : M unit :=
  setCells (SetQuery cellId query).

Definition toggleCellCollapse (cellId : string) : M unit :=
  setCells (ToggleCollapse cellId).

(** One task run by the event loop while a callback is suspended.  User
    handlers are those of the latest render. *)
Definition handle (i : Interrupt) : M unit :=
  match i with
  | TablesSettle response =>
      fun w =>
        match tables_in_flight w with
        | O => (tt, w)
        | S n =>
            loadTables_resume response
              {| state := state w; trace := trace w;
                 tables_in_flight := n; awaits := awaits w |}
        end
  | ClickAddCell now => addCell now
  | ClickDeleteCell cellId => cs <- get_cells ;; deleteCell cs cellId
  | EditQuery cellId query => updateCellQuery cellId query
  | ClickToggleCollapse cellId => toggleCellCollapse cellId
  end.

(** A suspension point: the interrupts scheduled for it run, then the
    callback resumes.  Returns the index of the suspension. *)
Definition suspend : M nat :=
  fun w =>
    let n := awaits w in
    let w' := exec (for_of (meanwhile env n) handle) w in
    (n, {| state := state w'; trace := trace w';
           tables_in_flight := tables_in_flight w'; awaits := S n |}).

(** [await axios.post(`${config.API_BASE_URL}/api/v1/execute`, {query, session_id})] *)
Definition axios_post_execute (query session_id : string) : M Outcome :=
  emit (PostExecute query session_id) ;;
  n <- suspend ;;
  ret (settle_post env n).

(** [await new Promise(resolve => setTimeout(resolve, ms))] *)
Definition sleep (ms : Z) : M unit :=
  emit (SetTimeout ms) ;;
  _ <- suspend ;;
  ret tt.

Definition errorResult (error : AxiosError.t) : QueryResult.t :=
  {| QueryResult.success := false;
     QueryResult.result := None;
     QueryResult.columns := None;
     QueryResult.time_ms := 0;
     QueryResult.message := None;
     QueryResult.error :=
       JS.or_else
         (JS.or_else (AxiosError.response_data_error error) (AxiosError.message error))
         (Some "Unknown error");
     QueryResult.affected_rows := None |}.

Definition historyItem_of (cell : Cell.t) (now : Z) (result : QueryResult.t)
  : QueryHistory.t :=
  {| QueryHistory.query := Cell.query cell;
     QueryHistory.timestamp := inject_Z now / inject_Z 1000;
     QueryHistory.success := QueryResult.success result;
     QueryHistory.time_ms := QueryResult.time_ms result;
     QueryHistory.affected_rows := QueryResult.affected_rows result |}.

(** The test of the 'Refresh tables if DDL operation' conditional. *)
Definition refreshes_tables (result : QueryResult.t) (query : string) : bool :=
  QueryResult.success result &&
  (JS.startsWith (JS.toUpperCase (JS.trim query)) "CREATE TABLE" ||
   JS.startsWith (JS.toUpperCase (JS.trim query)) "DROP TABLE").

(** [executeCell] after [await axios.post] settles: the rest of the [try]
    block, or the [catch] block. *)
Definition executeCell_resume (cell : Cell.t) (cellId : string) (o : Outcome)
  : M unit :=
  match o with
  | Resolved result =>
      setCells (AttachResult cellId result) ;;
      now <- Date_now ;;
      setHistory (Prepend (Config.MAX_HISTORY_ITEMS config)
                          (historyItem_of cell now result)) ;;
      if refreshes_tables result (Cell.query cell) then loadTables else ret tt
  | Rejected error =>
      setCells (AttachResult cellId (errorResult error))
  end.

(** [executeCell]; [cells] is the value closed over by the callback. *)
Definition executeCell (cells : list Cell.t) (cellId : string) : M unit :=
  match find (fun c => (Cell.id c =? cellId)%string) cells with
  | None => ret tt
  | Some cell =>
      if negb (JS.truthy (JS.trim (Cell.query cell))) then ret tt
      else
        setCells (MarkExecuting cellId) ;;
        o <- axios_post_execute (Cell.query cell) sessionId ;;
        executeCell_resume cell cellId o
  end.

(** [executeAllCells]; [cells] and [executeCell] come from the same render. *)
Definition executeAllCells (cells : list Cell.t) : M unit :=
  setIsRunningAll true ;;
  for_of cells (fun cell =>
    if JS.truthy (JS.trim (Cell.query cell)) then
      executeCell cells (Cell.id cell) ;;
      sleep 100
    else ret tt) ;;
  setIsRunningAll false.

(** *** Invocations from the rendered page *)

(** The [disabled] attribute of a cell's Run button. *)
Definition run_button_disabled (cell : Cell.t) : bool :=
  Cell.isExecuting cell || negb (JS.truthy (JS.trim (Cell.query cell))).

(** [executeCell(cell.id)] of the latest render. *)
Definition runOne (cellId : string) : M unit :=
  cs <- get_cells ;; executeCell cs cellId.

(** A click on the Run button of the cell [cellId]: a disabled button
    dispatches nothing. *)
Definition click_run (cellId : string) : M unit :=
  cs <- get_cells ;;
  match find (fun c => (Cell.id c =? cellId)%string) cs with
  | None => ret tt
  | Some cell => if run_button_disabled cell then ret tt else executeCell cs cellId
  end.

(** [executeAllCells] of the latest render. *)
Definition runAll : M unit :=
  cs <- get_cells ;; executeAllCells cs.

End App.

(** ** Add and delete commands on the cell store *)

Inductive Command : Type :=
| Add (now : Z)              (* addCell(), with the value Date.now() returns *)
| Delete (cellId : string).  (* deleteCell(cellId) *)

Definition run_command (c : Command) : M unit :=
  match c with
  | Add now => addCell now
  | Delete cellId => cs <- get_cells ;; deleteCell cs cellId
  end.

Definition run_commands (cmds : list Command) : M unit := for_of cmds run_command.

Definition initial_world (config : Config.t) : World :=
  {| state := initial_state config; trace := []; tables_in_flight := 0; awaits := 0 |}.

(** The store after a sequence of add and delete commands on a fresh page. *)
Definition store_after (config : Config.t) (cmds : list Command) : list Cell.t :=
  cells (state (exec (run_commands cmds) (initial_world config))).

(** ** Reading the trace *)

(** Events that only interrupt handlers produce: the continuation of a
    table fetch and the user commands. *)
Definition by_interrupt (e : Event) : bool :=
  match e with
  | SetTables _ => true
  | SetIsLoadingTables false => true
  | SetCells (Append _) => true
  | SetCells (Remove _) => true
  | SetCells (SetQuery _ _) => true
  | SetCells (ToggleCollapse _) => true
  | _ => false
  end.

(** Events of the orchestrating callbacks themselves. *)
Definition orchestrated (e : Event) : bool := negb (by_interrupt e).

Definition is_attach (cellId : string) (e : Event) : bool :=
  match e with
  | SetCells (AttachResult i _) => (i =? cellId)%string
  | _ => false
  end.

Definition is_history_append (e : Event) : bool :=
  match e with SetHistory (Prepend _ _) => true | _ => false end.

Definition is_refresh (e : Event) : bool :=
  match e with GetTables => true | _ => false end.

(** The execute requests of a trace, in order. *)
Definition posts_of (tr : list Event) : list (string * string) :=
  flat_map (fun e => match e with PostExecute q s => [(q, s)] | _ => [] end) tr.

(** The cells that had a result attached, in order. *)
Definition attached_of (tr : list Event) : list string :=
  flat_map (fun e => match e with SetCells (AttachResult i _) => [i] | _ => [] end) tr.

(** "No execute request is issued while a table refresh is outstanding":
    [pending] counts the fetches dispatched and not yet settled. *)
Fixpoint posts_wait_for_refresh (pending : nat) (tr : list Event) : bool :=
  match tr with
  | [] => true
  | GetTables :: tr' => posts_wait_for_refresh (S pending) tr'
  | SetIsLoadingTables false :: tr' => posts_wait_for_refresh (pred pending) tr'
  | PostExecute _ _ :: tr' => (pending =? 0)%nat && posts_wait_for_refresh pending tr'
  | _ :: tr' => posts_wait_for_refresh pending tr'
  end.

Definition label (e : Event) : string :=
  match e with
  | SetCells (MarkExecuting i) => "executing " ++ i
  | SetCells (AttachResult i _) => "result " ++ i
  | SetCells _ => "setCells"
  | SetHistory _ => "setHistory"
  | SetTables _ => "setTables"
  | SetIsLoadingTables b => if b then "loading tables" else "tables loaded"
  | SetIsRunningAll b => if b then "run all starts" else "run all ends"
  | PostExecute q _ => "POST " ++ q
  | GetTables => "GET tables"
  | SetTimeout _ => "pause"
  end.

(** What one executed cell contributes to the trace, when its request is
    the [n]-th suspension of the run. *)
Definition cell_events (config : Config.t) (sessionId : string) (env : Env)
    (cell : Cell.t) (n : nat) : list Event :=
  [SetCells (MarkExecuting (Cell.id cell)); PostExecute (Cell.query cell) sessionId] ++
  match settle_post env n with
  | Resolved result =>
      [SetCells (AttachResult (Cell.id cell) result);
       SetHistory (Prepend (Config.MAX_HISTORY_ITEMS config)
                           (historyItem_of cell (date_now env (S n)) result))] ++
      (if refreshes_tables result (Cell.query cell)
       then [SetIsLoadingTables true; GetTables] else [])
  | Rejected error =>
      [SetCells (AttachResult (Cell.id cell) (errorResult error))]
  end.

(** The cells of a run one after the other, each followed by the pause. *)
Fixpoint sequential_run (config : Config.t) (sessionId : string) (env : Env)
    (todo : list Cell.t) (n : nat) : list Event :=
  match todo with
  | [] => []
  | cell :: rest =>
      cell_events config sessionId env cell n ++ [SetTimeout 100] ++
      sequential_run config sessionId env rest (S (S n))
  end.

Definition nonblank (cell : Cell.t) : bool := JS.truthy (JS.trim (Cell.query cell)).

(** The specification's reading of the trigger: the text begins with the
    keyword, compared character by character ignoring letter case. *)
Fixpoint begins_with_ignoring_case (text keyword : string) : bool :=
  match keyword, text with
  | EmptyString, _ => true
  | String _ _, EmptyString => false
  | String k ks, String t ts =>
      (JS.upperChar t =? JS.upperChar k)%char && begins_with_ignoring_case ts ks
  end.

Definition schema_mutating (query : string) : bool :=
  begins_with_ignoring_case (JS.trim query) "CREATE TABLE" ||
  begins_with_ignoring_case (JS.trim query) "DROP TABLE".

(** The log after appending [items] one after the other. *)
Definition append_all (H : Z) (items : list QueryHistory.t) (log : list QueryHistory.t)
  : list QueryHistory.t :=
  fold_left (fun prev item => apply_history (Prepend H item) prev) items log.

Fixpoint whitespace_only (s : string) : bool :=
  match s with
  | EmptyString => true
  | String c s' => JS.isWhiteSpace c && whitespace_only s'
  end.

(** ** Auxiliary definitions for the proofs *)

Local Open Scope list_scope.

(** [w'] is [w] after some interrupt handlers ran: they add only their own
    events to the trace and leave the history log alone. *)
Definition quiet (w w' : World) : Prop :=
  awaits w' = awaits w /\
  history (state w') = history (state w) /\
  exists evs, trace w' = trace w ++ evs /\ forallb by_interrupt evs = true.

(** The world in which a callback resumes after suspending in [w]. *)
Definition resumed (env : Env) (w : World) : World := snd (suspend env w).

(** The world in which the execute request of [cell] has just been sent. *)
Definition at_request (sessionId : string) (cell : Cell.t) (cellId : string)
    (w : World) : World :=
  exec (setCells (MarkExecuting cellId) ;; emit (PostExecute (Cell.query cell) sessionId)) w.

(** The events of [executeCell_resume]. *)
Definition resume_events (config : Config.t) (cell : Cell.t) (cellId : string)
    (now : Z) (o : Outcome) : list Event :=
  match o with
  | Resolved result =>
      [SetCells (AttachResult cellId result);
       SetHistory (Prepend (Config.MAX_HISTORY_ITEMS config)
                           (historyItem_of cell now result))] ++
      (if refreshes_tables result (Cell.query cell)
       then [SetIsLoadingTables true; GetTables] else [])
  | Rejected error => [SetCells (AttachResult cellId (errorResult error))]
  end.

(** The body of the [for ... of] loop of [executeAllCells]. *)
Definition loop_body (config : Config.t) (sessionId : string) (env : Env)
    (cs : list Cell.t) (cell : Cell.t) : M unit :=
  if JS.truthy (JS.trim (Cell.query cell)) then
    executeCell config sessionId env cs (Cell.id cell) ;; sleep env 100
  else ret tt.

(** The cells whose request a run over the closure [cs] issues while it
    loops over [todo]: for each non-empty cell, the first cell of [cs]
    with its id, provided that one is non-empty too. *)
Definition planned_cells (cs todo : list Cell.t) : list Cell.t :=
  flat_map (fun c =>
    if nonblank c then
      match find (fun c' => (Cell.id c' =? Cell.id c)%string) cs with
      | Some target => if nonblank target then [target] else []
      | None => []
      end
    else []) todo.

(** Updaters that add or remove cells. *)
Definition structural (u : CellsUpdate) : bool :=
  match u with Append _ | Remove _ => true | _ => false end.

(** The clock readings of the add commands increase strictly, starting
    above [last]. *)
Fixpoint clock_increasing (last : Z) (cmds : list Command) : Prop :=
  match cmds with
  | [] => True
  | Add now :: rest => last < now /\ clock_increasing now rest
  | Delete _ :: rest => clock_increasing last rest
  end.

(** Every id of the store is the id of a clock reading up to [last]. *)
Definition stamped_upto (last : Z) (cs : list Cell.t) : Prop :=
  forall i, In i (map Cell.id cs) ->
    exists t, t <= last /\ i = ("cell-" ++ JS.string_of_Z t)%string.

Definition well_formed (last : Z) (cs : list Cell.t) : Prop :=
  NoDup (map Cell.id cs) /\ cs <> [] /\ stamped_upto last cs.

(** ** Concrete pages used in the examples *)

Definition demo_session : string := "session-1700000000000".

Definition cell_of (cellId query : string) (executing : bool) : Cell.t :=
  {| Cell.id := cellId; Cell.query := query; Cell.result := None;
     Cell.isExecuting := executing; Cell.isCollapsed := false |}.

(** A page whose store holds [cs], with nothing in flight. *)
Definition world_of (cs : list Cell.t) : World :=
  {| state := set_cells cs (initial_state default_config);
     trace := []; tables_in_flight := 0; awaits := 0 |}.

Definition ok_result : QueryResult.t :=
  {| QueryResult.success := true; QueryResult.result := Some [];
     QueryResult.columns := Some []; QueryResult.time_ms := 2;
     QueryResult.message := Some "OK"; QueryResult.error := None;
     QueryResult.affected_rows := Some 0 |}.

Definition engine_failure : QueryResult.t :=
  {| QueryResult.success := false; QueryResult.result := None;
     QueryResult.columns := None; QueryResult.time_ms := 1;
     QueryResult.message := None; QueryResult.error := Some "Table t already exists";
     QueryResult.affected_rows := None |}.

Definition network_error : AxiosError.t :=
  {| AxiosError.response_data_error := None;
     AxiosError.message := Some "Network Error" |}.

(** Every request settles to [o]; nothing else happens meanwhile. *)
Definition calm (o : Outcome) : Env :=
  {| settle_post := fun _ => o;
     meanwhile := fun _ => [];
     date_now := fun _ => 1700000000000 |}.

(** Requests settle in turn to the outcomes [os] (then succeed). *)
Definition scripted (os : list Outcome) : Env :=
  {| settle_post := fun n => nth (Nat.div2 n) os (Resolved ok_result);
     meanwhile := fun _ => [];
     date_now := fun _ => 1700000000000 |}.

(** Every request succeeds; the response of the first table fetch arrives
    during the third suspension. *)
Definition slow_refresh : Env :=
  {| settle_post := fun _ => Resolved ok_result;
     meanwhile := fun n =>
       match n with
       | 2%nat => [TablesSettle (Some {| TablesData.success := true;
                                         TablesData.tables := [] |})]
       | _ => []
       end;
     date_now := fun _ => 1700000000000 |}.

Definition ddl_then_select : list Cell.t :=
  [ cell_of "cell-1" "CREATE TABLE t (id INT PRIMARY KEY);" false;
    cell_of "cell-1700000000000" "SELECT * FROM t;" false ].

Definition three_cells : list Cell.t :=
  [ cell_of "cell-1" "SELEC oops" false;
    cell_of "cell-1700000000000" "CREATE TABLE t (id INT PRIMARY KEY);" false;
    cell_of "cell-1700000000500" "" false;
    cell_of "cell-1700000001000" "SELECT * FROM t;" false ].

(** The run-all of [ddl_then_select] with the slow table fetch. *)
Definition slow_refresh_run : World :=
  exec (executeAllCells default_config demo_session slow_refresh ddl_then_select)
       (world_of ddl_then_select).

(** The fresh page, and the run of its only cell when the network is down. *)
Definition fresh_page : World := world_of (initial_cells default_config).

Definition rejected_run : World :=
  exec (runOne default_config demo_session (calm (Rejected network_error)) "cell-1")
       fresh_page.

(** A page whose only cell is executing, and [executeCell] called on it. *)
Definition executing_page : World :=
  world_of [cell_of "cell-1" "SELECT * FROM users;" true].

Definition rerun : World :=
  exec (runOne default_config demo_session (calm (Resolved ok_result)) "cell-1")
       executing_page.

(** A page whose only cell holds white space. *)
Definition blank_page : World := world_of [cell_of "cell-1" "   " false].

Definition history_item (query : string) : QueryHistory.t :=
  {| QueryHistory.query := query; QueryHistory.timestamp := 1700000000;
     QueryHistory.success := true; QueryHistory.time_ms := 1;
     QueryHistory.affected_rows := None |}.

(** ** Further callbacks and the rendering of a cell *)

(** Payload of the 'history' request: [{ queries?: QueryHistory[] }]. *)
Module HistoryData.
Record t : Type := mk {
  queries : option (list QueryHistory.t)
}.
End HistoryData.

(** [loadHistory], after its [await axios.get]: [response] is the payload
    the promise resolved with, or [None] when it rejected.  Before the
    await the callback only sends the request. *)
Definition loadHistory_resume (response : option HistoryData.t) : M unit :=
  match response with
  | Some data =>
      setHistory (Replace match HistoryData.queries data with
                          | Some queries => queries
                          | None => []
                          end)
  | None => ret tt
  end.

(** [resetDatabase], after its [await axios.post]: [resolved] tells whether
    the promise resolved.  Before the await the callback only sends the
    request. *)
Definition resetDatabase_resume (resolved : bool) : M unit :=
  if resolved then
    setCells ClearResults ;;
    setHistory (Replace []) ;;
    loadTables
  else ret tt.

(** The whole callbacks, with the suspension at their [await]. *)
Definition loadHistory (env : Env) (response : option HistoryData.t) : M unit :=
  _ <- suspend env ;; loadHistory_resume response.

Definition resetDatabase (env : Env) (resolved : bool) : M unit :=
  _ <- suspend env ;; resetDatabase_resume resolved.

(** What the page shows under the editor of a cell. *)
Inductive Output : Type :=
| NoOutput
| ShowTable (data : list JS.any) (columns : option (list string))
| ShowMessage (message : option string)
| ShowError (text : option string).

(** The [cell.result && ...] block of the cell's JSX. *)
Definition cell_output (cell : Cell.t) : Output :=
  match Cell.result cell with
  | None => NoOutput
  | Some r =>
      if QueryResult.success r then
        match QueryResult.result r with
        | Some (row :: rows) => ShowTable (row :: rows) (QueryResult.columns r)
        | _ => ShowMessage (QueryResult.message r)
        end
      else ShowError (JS.or_else (QueryResult.error r) (QueryResult.message r))
  end.

(** The table cache after the responses [rs] of table fetches were
    handled in that order. *)
Definition tables_after (rs : list (option TablesData.t)) (ts : list TableInfo.t)
  : list TableInfo.t :=
  fold_left (fun acc r =>
               match r with
               | Some data => if TablesData.success data then TablesData.tables data else acc
               | None => acc
               end) rs ts.

(** What [executeCell] attaches to the cell for an outcome of its request. *)
Definition attached_result (o : Outcome) : QueryResult.t :=
  match o with
  | Resolved result => result
  | Rejected error => errorResult error
  end.

Definition other_than (cellId : string) (c : Cell.t) : bool :=
  negb (Cell.id c =? cellId)%string.

(** ** Proof automation *)

Ltac quiet_by evs :=
  split; [reflexivity | split; [reflexivity | exists evs; split;
  [ simpl; rewrite <- ?app_assoc, ?app_nil_r; reflexivity | reflexivity ]]].

Ltac distinct_ids :=
  simpl;
  repeat (constructor;
          [ simpl; intros Hin;
            repeat (destruct Hin as [Hin|Hin]; [discriminate Hin|]);
            exact Hin | ]);
  constructor.


(** ** Strings *)

Lemma trimStart_empty_iff (s : string) :
  JS.trimStart s = EmptyString <-> whitespace_only s = true.
Proof.
  induction s as [|c s IH]; simpl.
  - tauto.
  - destruct (JS.isWhiteSpace c); simpl.
    + exact IH.
    + split; discriminate.
Qed.

Lemma trimEnd_nonempty (c : ascii) (s : string) :
  JS.isWhiteSpace c = false -> JS.trimEnd (String c s) <> EmptyString.
Proof.
  intros Hc. simpl. destruct (JS.trimEnd s); [rewrite Hc|]; discriminate.
Qed.

Lemma trimStart_head (s : string) :
  match JS.trimStart s with
  | EmptyString => True
  | String c _ => JS.isWhiteSpace c = false
  end.
Proof.
  induction s as [|c s IH]; simpl; [exact I|].
  destruct (JS.isWhiteSpace c) eqn:Hc; [exact IH | exact Hc].
Qed.

(** A query is falsy after [trim] exactly when it is empty or consists of
    white space only. *)
Lemma trim_blank (s : string) :
  JS.truthy (JS.trim s) = negb (whitespace_only s).
Proof.
  unfold JS.trim.
  destruct (whitespace_only s) eqn:Hw.
  - apply trimStart_empty_iff in Hw. rewrite Hw. reflexivity.
  - pose proof (trimStart_head s) as Hh.
    destruct (JS.trimStart s) as [|c t] eqn:Ht.
    + apply trimStart_empty_iff in Ht. congruence.
    + pose proof (trimEnd_nonempty c t Hh) as Hne.
      destruct (JS.trimEnd (String c t)); [contradiction | reflexivity].
Qed.

(** [toUpperCase] followed by [startsWith] on an upper-case keyword is the
    comparison ignoring case. *)
Lemma startsWith_toUpperCase (keyword : string) :
  JS.toUpperCase keyword = keyword ->
  forall text,
    JS.startsWith (JS.toUpperCase text) keyword = begins_with_ignoring_case text keyword.
Proof.
  unfold JS.startsWith.
  induction keyword as [|k ks IH]; intros Hup text.
  - destruct text; reflexivity.
  - simpl in Hup. injection Hup as Hk Hks.
    destruct text as [|t ts]; simpl; [reflexivity|].
    rewrite Hk.
    destruct (ascii_dec k (JS.upperChar t)) as [->|Hne].
    + rewrite Ascii.eqb_refl. simpl. apply IH, Hks.
    + replace (JS.upperChar t =? k)%char with false; [reflexivity|].
      symmetry. apply Ascii.eqb_neq. congruence.
Qed.

Lemma refreshes_tables_spec (result : QueryResult.t) (query : string) :
  refreshes_tables result query = QueryResult.success result && schema_mutating query.
Proof.
  unfold refreshes_tables, schema_mutating.
  rewrite !startsWith_toUpperCase by reflexivity. reflexivity.
Qed.

(** ** The history log *)

Lemma slice_from_0 {A : Type} (e : Z) (l : list A) :
  0 <= e -> JS.slice 0 e l = firstn (Z.to_nat e) l.
Proof.
  intros He. unfold JS.slice. cbv zeta.
  replace (0 <? 0) with false by reflexivity.
  replace (e <? 0) with false by (symmetry; apply Z.ltb_ge; exact He).
  set (len := Z.of_nat (List.length l)).
  replace (Z.to_nat (Z.min 0 len)) with 0%nat by lia. simpl skipn.
  destruct (Z.le_ge_cases e len) as [Hle|Hge].
  - replace (Z.max (Z.min e len - Z.min 0 len) 0) with e by lia. reflexivity.
  - replace (Z.to_nat (Z.max (Z.min e len - Z.min 0 len) 0)) with (List.length l) by lia.
    rewrite firstn_all, firstn_all2; [reflexivity | lia].
Qed.

Lemma prepend_length (H : Z) (item : QueryHistory.t) (prev : list QueryHistory.t) :
  1 <= H ->
  Z.of_nat (List.length (apply_history (Prepend H item) prev))
  = Z.min (Z.of_nat (List.length prev) + 1) H.
Proof.
  intros HH. simpl. rewrite slice_from_0 by lia.
  rewrite length_firstn. lia.
Qed.

Lemma append_all_snoc (H : Z) (items : list QueryHistory.t) (item : QueryHistory.t)
    (log : list QueryHistory.t) :
  append_all H (items ++ [item]) log
  = apply_history (Prepend H item) (append_all H items log).
Proof.
  unfold append_all. rewrite fold_left_app. reflexivity.
Qed.

Lemma append_all_length (H : Z) (items log : list QueryHistory.t) :
  1 <= H ->
  items <> [] ->
  Z.of_nat (List.length (append_all H items log))
  = Z.min (Z.of_nat (List.length log) + Z.of_nat (List.length items)) H.
Proof.
  intros HH. induction items as [|item items IH] using rev_ind; [congruence|].
  intros _. rewrite append_all_snoc, prepend_length by exact HH.
  rewrite length_app. simpl List.length.
  destruct items as [|i0 items'].
  - simpl. lia.
  - rewrite IH by discriminate. simpl List.length. lia.
Qed.

Lemma append_all_head (H : Z) (items log : list QueryHistory.t) :
  items <> [] ->
  hd_error (append_all H items log) = hd_error (rev items).
Proof.
  intros Hne. destruct items as [|item items] using rev_ind; [congruence|].
  rewrite append_all_snoc, rev_app_distr. reflexivity.
Qed.

(** ** Suspension points *)

Lemma quiet_refl (w : World) : quiet w w.
Proof.
  repeat split. exists []. split; [symmetry; apply app_nil_r | reflexivity].
Qed.

Lemma quiet_trans (w1 w2 w3 : World) : quiet w1 w2 -> quiet w2 w3 -> quiet w1 w3.
Proof.
  intros (Ha & Hh & evs & Ht & Hf) (Ha' & Hh' & evs' & Ht' & Hf').
  repeat split; [congruence | congruence |].
  exists (evs ++ evs'). split.
  - rewrite Ht', Ht, app_assoc. reflexivity.
  - rewrite forallb_app, Hf, Hf'. reflexivity.
Qed.

Lemma handle_quiet (i : Interrupt) (w : World) : quiet w (exec (handle i) w).
Proof.
  destruct i as [response | now | cellId | cellId query | cellId];
    unfold exec, handle, loadTables_resume, addCell, updateCellQuery,
      toggleCellCollapse, deleteCell, setCells, setTables, setIsLoadingTables,
      bind, emit, modify, get_cells, ret; simpl.
  - destruct (tables_in_flight w) as [|n]; [apply quiet_refl|].
    destruct response as [data|]; simpl.
    + destruct (TablesData.success data); simpl.
      * quiet_by [SetTables (TablesData.tables data); SetIsLoadingTables false].
      * quiet_by [SetIsLoadingTables false].
    + quiet_by [SetIsLoadingTables false].
  - quiet_by [SetCells (Append
               {| Cell.id := ("cell-" ++ JS.string_of_Z now)%string; Cell.query := "";
                  Cell.result := None; Cell.isExecuting := false;
                  Cell.isCollapsed := false |})].
  - destruct (List.length (cells (state w)) <=? 1)%nat; simpl.
    + apply quiet_refl.
    + quiet_by [SetCells (Remove cellId)].
  - quiet_by [SetCells (SetQuery cellId query)].
  - quiet_by [SetCells (ToggleCollapse cellId)].
Qed.

Lemma interrupts_quiet (l : list Interrupt) (w : World) :
  quiet w (exec (for_of l handle) w).
Proof.
  revert w. induction l as [|i l IH]; intros w.
  - apply quiet_refl.
  - unfold exec. simpl. unfold bind.
    destruct (handle i w) as [u w1] eqn:Hh.
    apply quiet_trans with w1.
    + pose proof (handle_quiet i w) as Hq. unfold exec in Hq. rewrite Hh in Hq. exact Hq.
    + apply IH.
Qed.

Lemma resumed_awaits (env : Env) (w : World) : awaits (resumed env w) = S (awaits w).
Proof. reflexivity. Qed.

Lemma resumed_history (env : Env) (w : World) :
  history (state (resumed env w)) = history (state w).
Proof.
  unfold resumed, suspend. simpl.
  apply (interrupts_quiet (meanwhile env (awaits w)) w).
Qed.

Lemma resumed_trace (env : Env) (w : World) :
  exists evs, trace (resumed env w) = trace w ++ evs /\ forallb by_interrupt evs = true.
Proof.
  unfold resumed, suspend. simpl.
  apply (interrupts_quiet (meanwhile env (awaits w)) w).
Qed.

Lemma filter_none {A : Type} (p q : A -> bool) (l : list A) :
  (forall a, q a = true -> p a = false) ->
  forallb q l = true -> filter p l = [].
Proof.
  intros Hpq. induction l as [|a l IH]; simpl; [reflexivity|].
  intros Hall. apply andb_prop in Hall as [Ha Hl].
  rewrite (Hpq a Ha). apply IH, Hl.
Qed.

Lemma orchestrated_resumed (env : Env) (w : World) :
  filter orchestrated (trace (resumed env w)) = filter orchestrated (trace w).
Proof.
  destruct (resumed_trace env w) as (evs & -> & Hevs).
  rewrite filter_app, (filter_none orchestrated by_interrupt evs), app_nil_r; auto.
  intros a Ha. unfold orchestrated. rewrite Ha. reflexivity.
Qed.

(** ** One cell *)

Lemma find_by_id (cs : list Cell.t) (cellId : string) (cell : Cell.t) :
  find (fun c => (Cell.id c =? cellId)%string) cs = Some cell ->
  In cell cs /\ Cell.id cell = cellId.
Proof.
  intros Hf. apply find_some in Hf as [Hin Heq].
  split; [exact Hin | apply String.eqb_eq, Heq].
Qed.

Section OneCell.

Variable config : Config.t.
Variable sessionId : string.
Variable env : Env.

Lemma executeCell_unfold (cs : list Cell.t) (cellId : string) (cell : Cell.t) (w : World) :
  find (fun c => (Cell.id c =? cellId)%string) cs = Some cell ->
  nonblank cell = true ->
  executeCell config sessionId env cs cellId w
  = executeCell_resume config env cell cellId (settle_post env (awaits w))
      (resumed env (at_request sessionId cell cellId w)).
Proof.
  intros Hf Hnb. unfold executeCell. rewrite Hf.
  unfold nonblank in Hnb. rewrite Hnb. reflexivity.
Qed.

Lemma executeCell_skips (cs : list Cell.t) (cellId : string) (w : World) :
  match find (fun c => (Cell.id c =? cellId)%string) cs with
  | Some cell => nonblank cell = false
  | None => True
  end ->
  executeCell config sessionId env cs cellId w = (tt, w).
Proof.
  unfold executeCell.
  destruct (find _ cs) as [cell|]; [|reflexivity].
  unfold nonblank. intros ->. reflexivity.
Qed.

Lemma executeCell_resume_trace (cell : Cell.t) (cellId : string) (o : Outcome) (w : World) :
  let w' := exec (executeCell_resume config env cell cellId o) w in
  trace w' = trace w ++ resume_events config cell cellId (date_now env (awaits w)) o
  /\ awaits w' = awaits w.
Proof.
  destruct o as [result | error]; unfold exec; simpl.
  - unfold resume_events.
    destruct (refreshes_tables result (Cell.query cell)); simpl;
      rewrite <- ?app_assoc; split; reflexivity.
  - split; reflexivity.
Qed.

Lemma executeCell_resume_cells (cell : Cell.t) (cellId : string) (o : Outcome) (w : World) :
  cells (state (exec (executeCell_resume config env cell cellId o) w))
  = apply_cells
      (AttachResult cellId
         match o with Resolved result => result | Rejected error => errorResult error end)
      (cells (state w)).
Proof.
  destruct o as [result | error]; unfold exec; simpl; [|reflexivity].
  destruct (refreshes_tables result (Cell.query cell)); reflexivity.
Qed.

Lemma executeCell_resume_history (cell : Cell.t) (cellId : string) (o : Outcome) (w : World) :
  history (state (exec (executeCell_resume config env cell cellId o) w))
  = match o with
    | Resolved result =>
        apply_history
          (Prepend (Config.MAX_HISTORY_ITEMS config)
                   (historyItem_of cell (date_now env (awaits w)) result))
          (history (state w))
    | Rejected _ => history (state w)
    end.
Proof.
  destruct o as [result | error]; unfold exec; simpl; [|reflexivity].
  destruct (refreshes_tables result (Cell.query cell)); reflexivity.
Qed.

Lemma resume_events_orchestrated (cell : Cell.t) (cellId : string) (now : Z) (o : Outcome) :
  filter orchestrated (resume_events config cell cellId now o)
  = resume_events config cell cellId now o.
Proof.
  destruct o as [result | error]; simpl; [|reflexivity].
  destruct (refreshes_tables result (Cell.query cell)); reflexivity.
Qed.

(** What a call of [executeCell] that passes its guard adds to the
    orchestrator's part of the trace: the events of [cell_events], in that
    order, with one suspension in between. *)
Lemma executeCell_trace (cs : list Cell.t) (cellId : string) (cell : Cell.t) (w : World) :
  find (fun c => (Cell.id c =? cellId)%string) cs = Some cell ->
  nonblank cell = true ->
  let w' := exec (executeCell config sessionId env cs cellId) w in
  filter orchestrated (trace w')
  = filter orchestrated (trace w) ++ cell_events config sessionId env cell (awaits w)
  /\ awaits w' = S (awaits w).
Proof.
  intros Hf Hnb. cbv zeta. unfold exec.
  rewrite (executeCell_unfold cs cellId cell w Hf Hnb).
  destruct (find_by_id cs cellId cell Hf) as [_ Hid].
  pose proof (executeCell_resume_trace cell cellId (settle_post env (awaits w))
                (resumed env (at_request sessionId cell cellId w))) as [Ht Ha].
  unfold exec in Ht, Ha. rewrite Ht, Ha, resumed_awaits.
  split; [|reflexivity].
  rewrite filter_app, orchestrated_resumed, resume_events_orchestrated.
  unfold at_request, exec. simpl. rewrite <- !app_assoc, !filter_app. simpl.
  rewrite <- !app_assoc. simpl. unfold cell_events, resume_events. rewrite Hid.
  destruct (settle_post env (awaits w)); reflexivity.
Qed.

End OneCell.

(** ** Run all *)

Lemma exec_bind {A B : Type} (m : M A) (k : A -> M B) (w : World) :
  exec (bind m k) w = exec (k (fst (m w))) (exec m w).
Proof.
  unfold exec, bind. destruct (m w) as [a w']. reflexivity.
Qed.

Lemma find_by_id_NoDup (cs : list Cell.t) (c : Cell.t) :
  NoDup (map Cell.id cs) -> In c cs ->
  find (fun c' => (Cell.id c' =? Cell.id c)%string) cs = Some c.
Proof.
  induction cs as [|a cs IH]; intros Hnd Hin; [contradiction|].
  simpl in Hnd. apply NoDup_cons_iff in Hnd as [Hfresh Hnd].
  destruct Hin as [->|Hin]; simpl.
  - rewrite String.eqb_refl. reflexivity.
  - destruct (String.eqb_spec (Cell.id a) (Cell.id c)) as [Heq|_].
    + exfalso. apply Hfresh. rewrite Heq. apply in_map, Hin.
    + apply IH; assumption.
Qed.

Lemma posts_of_app (t1 t2 : list Event) : posts_of (t1 ++ t2) = posts_of t1 ++ posts_of t2.
Proof. apply flat_map_app. Qed.

Lemma attached_of_app (t1 t2 : list Event) :
  attached_of (t1 ++ t2) = attached_of t1 ++ attached_of t2.
Proof. apply flat_map_app. Qed.

Lemma posts_of_orchestrated (tr : list Event) :
  posts_of (filter orchestrated tr) = posts_of tr.
Proof.
  induction tr as [|e tr IH]; [reflexivity|].
  destruct e as [[]| | |[]| | | |]; simpl; rewrite ?IH; reflexivity.
Qed.

Lemma attached_of_orchestrated (tr : list Event) :
  attached_of (filter orchestrated tr) = attached_of tr.
Proof.
  induction tr as [|e tr IH]; [reflexivity|].
  destruct e as [[]| | |[]| | | |]; simpl; rewrite ?IH; reflexivity.
Qed.

Section RunAll.

Variable config : Config.t.
Variable sessionId : string.
Variable env : Env.

Lemma sleep_trace (ms : Z) (w : World) :
  let w' := exec (sleep env ms) w in
  filter orchestrated (trace w') = filter orchestrated (trace w) ++ [SetTimeout ms]
  /\ awaits w' = S (awaits w).
Proof.
  cbv zeta.
  change (exec (sleep env ms) w) with (resumed env (exec (emit (SetTimeout ms)) w)).
  rewrite orchestrated_resumed, resumed_awaits. unfold exec. simpl.
  rewrite filter_app. split; reflexivity.
Qed.

Lemma loop_trace (cs todo : list Cell.t) :
  (forall c, In c todo ->
     find (fun c' => (Cell.id c' =? Cell.id c)%string) cs = Some c) ->
  forall w,
    filter orchestrated (trace (exec (for_of todo (loop_body config sessionId env cs)) w))
    = filter orchestrated (trace w)
      ++ sequential_run config sessionId env (filter nonblank todo) (awaits w).
Proof.
  induction todo as [|c todo IH]; intros Hfind w.
  - simpl. rewrite app_nil_r. reflexivity.
  - simpl for_of. rewrite exec_bind.
    assert (Hrest : forall c', In c' todo ->
              find (fun c'' => (Cell.id c'' =? Cell.id c')%string) cs = Some c')
      by (intros c' Hc'; apply Hfind; right; exact Hc').
    rewrite (IH Hrest). simpl filter. unfold loop_body.
    fold (nonblank c). destruct (nonblank c) eqn:Hnb.
    + rewrite exec_bind.
      destruct (sleep_trace 100
                  (exec (executeCell config sessionId env cs (Cell.id c)) w)) as [Ht Ha].
      destruct (executeCell_trace config sessionId env cs (Cell.id c) c w
                  (Hfind c (or_introl eq_refl)) Hnb) as [Ht' Ha'].
      rewrite Ht, Ha, Ht', Ha'. simpl sequential_run.
      rewrite <- !app_assoc. reflexivity.
    + reflexivity.
Qed.

(** The orchestrator's part of the trace of a run over a store with
    pairwise distinct ids. *)
Lemma executeAllCells_trace (cs : list Cell.t) (w : World) :
  NoDup (map Cell.id cs) ->
  filter orchestrated (trace (exec (executeAllCells config sessionId env cs) w))
  = filter orchestrated (trace w)
    ++ [SetIsRunningAll true]
    ++ sequential_run config sessionId env (filter nonblank cs) (awaits w)
    ++ [SetIsRunningAll false].
Proof.
  intros Hnd. unfold executeAllCells.
  rewrite exec_bind, exec_bind.
  change (fun cell : Cell.t =>
            if JS.truthy (JS.trim (Cell.query cell))
            then executeCell config sessionId env cs (Cell.id cell) ;; sleep env 100
            else ret tt) with (loop_body config sessionId env cs).
  set (w1 := exec (setIsRunningAll true) w).
  set (w2 := exec (for_of cs (loop_body config sessionId env cs)) w1).
  change (trace (exec (setIsRunningAll false) w2)) with (trace w2 ++ [SetIsRunningAll false]).
  rewrite filter_app. subst w2.
  rewrite loop_trace by (intros c Hc; apply find_by_id_NoDup; assumption).
  subst w1. unfold exec. simpl. rewrite filter_app. simpl.
  rewrite <- !app_assoc. reflexivity.
Qed.

Lemma sequential_run_cons (c : Cell.t) (todo : list Cell.t) (n : nat) :
  sequential_run config sessionId env (c :: todo) n
  = cell_events config sessionId env c n ++ [SetTimeout 100]
    ++ sequential_run config sessionId env todo (S (S n)).
Proof. reflexivity. Qed.

Lemma sequential_run_app (pre rest : list Cell.t) (n : nat) :
  sequential_run config sessionId env (pre ++ rest) n
  = sequential_run config sessionId env pre n
    ++ sequential_run config sessionId env rest (n + 2 * List.length pre).
Proof.
  revert n. induction pre as [|c pre IH]; intros n.
  - simpl. rewrite Nat.add_0_r. reflexivity.
  - rewrite <- app_comm_cons, !sequential_run_cons, IH, <- !app_assoc.
    replace (S (S n) + 2 * List.length pre)%nat
      with (n + 2 * List.length (c :: pre))%nat by (simpl; lia).
    reflexivity.
Qed.

End RunAll.

(** ** The cell store under add and delete *)

Lemma on_cell_id (cellId : string) (f : Cell.t -> Cell.t) (c : Cell.t) :
  (forall c', Cell.id (f c') = Cell.id c') ->
  Cell.id (on_cell cellId f c) = Cell.id c.
Proof.
  intros Hf. unfold on_cell. destruct (Cell.id c =? cellId)%string; [apply Hf | reflexivity].
Qed.

(** Identity is stable: every updater other than add and delete leaves
    the sequence of ids as it is. *)
Lemma apply_cells_ids (u : CellsUpdate) (cs : list Cell.t) :
  structural u = false -> map Cell.id (apply_cells u cs) = map Cell.id cs.
Proof.
  destruct u; simpl; try discriminate; intros _; rewrite map_map;
    apply map_ext; intros c; try apply on_cell_id; reflexivity.
Qed.

Lemma remove_ids (cellId : string) (cs : list Cell.t) :
  map Cell.id (apply_cells (Remove cellId) cs)
  = filter (fun i => negb (i =? cellId)%string) (map Cell.id cs).
Proof.
  simpl. induction cs as [|c cs IH]; simpl; [reflexivity|].
  destruct (Cell.id c =? cellId)%string; simpl; rewrite IH; reflexivity.
Qed.

Lemma filter_NoDup {A : Type} (p : A -> bool) (l : list A) :
  NoDup l -> NoDup (filter p l).
Proof.
  induction 1 as [|a l Hfresh Hnd IH]; simpl; [constructor|].
  destruct (p a); [constructor|]; auto.
  intros Hin. apply Hfresh. apply filter_In in Hin. tauto.
Qed.

(** With pairwise distinct ids the filter of [deleteCell] removes at most
    one cell. *)
Lemma remove_length (cellId : string) (cs : list Cell.t) :
  NoDup (map Cell.id cs) ->
  (List.length cs <= S (List.length (apply_cells (Remove cellId) cs)))%nat.
Proof.
  simpl. induction cs as [|c cs IH]; simpl; intros Hnd; [lia|].
  apply NoDup_cons_iff in Hnd as [Hfresh Hnd].
  destruct (String.eqb_spec (Cell.id c) cellId) as [Heq|Hne]; simpl.
  - rewrite forallb_filter_id; [lia|].
    apply forallb_forall. intros c' Hc'.
    destruct (String.eqb_spec (Cell.id c') cellId) as [Heq'|]; [|reflexivity].
    exfalso. apply Hfresh. rewrite Heq, <- Heq'. apply in_map, Hc'.
  - specialize (IH Hnd). lia.
Qed.

Lemma string_of_Z_inj (a b : Z) : JS.string_of_Z a = JS.string_of_Z b -> a = b.
Proof.
  unfold JS.string_of_Z. intros Heq.
  assert (Hparse : forall z, NilZero.int_of_string (NilZero.string_of_int (Z.to_int z))
                             = Some (Z.to_int z)).
  { intros z. apply NilZero.isi; destruct z; simpl; try discriminate;
      intros [= Hnil]; exact (DecimalPos.Unsigned.to_uint_nonnil _ Hnil). }
  pose proof (Hparse a) as Ha. rewrite Heq, Hparse in Ha.
  injection Ha as Ha. rewrite <- (DecimalZ.of_to a), <- (DecimalZ.of_to b), Ha.
  reflexivity.
Qed.

Lemma addCell_well_formed (last now : Z) (w : World) :
  last < now ->
  well_formed last (cells (state w)) ->
  well_formed now (cells (state (exec (addCell now) w))).
Proof.
  intros Hlt (Hnd & Hne & Hst). unfold exec. simpl.
  repeat split.
  - rewrite map_app. simpl.
    apply NoDup_app; [exact Hnd | repeat constructor; intros [] |].
    intros i Hi [<-|[]].
    destruct (Hst _ Hi) as (t & Ht & Heq).
    injection Heq as Heq. apply string_of_Z_inj in Heq. lia.
  - intros Heq. apply app_eq_nil in Heq as [_ Heq]. discriminate.
  - intros i Hi. rewrite map_app in Hi. apply in_app_or in Hi as [Hi|[<-|[]]].
    + destruct (Hst _ Hi) as (t & Ht & Heq). exists t. split; [lia | exact Heq].
    + exists now. split; [lia | reflexivity].
Qed.

Lemma deleteCell_well_formed (last : Z) (cellId : string) (w : World) :
  well_formed last (cells (state w)) ->
  well_formed last
    (cells (state (exec (cs <- get_cells ;; deleteCell cs cellId) w))).
Proof.
  intros (Hnd & Hne & Hst). unfold exec, bind, get_cells, deleteCell. simpl.
  destruct (List.length (cells (state w)) <=? 1)%nat eqn:Hlen; simpl.
  - repeat split; assumption.
  - apply Nat.leb_gt in Hlen.
    pose proof (remove_length cellId (cells (state w)) Hnd) as Hrem.
    pose proof (remove_ids cellId (cells (state w))) as Hids.
    simpl in Hrem, Hids. repeat split.
    + rewrite Hids. apply filter_NoDup, Hnd.
    + intros Heq. rewrite Heq in Hrem. simpl in Hrem. lia.
    + intros i Hi. rewrite Hids in Hi. apply filter_In in Hi as [Hi _].
      apply Hst, Hi.
Qed.

(** As long as no two add commands read the same clock value, the guard
    of [deleteCell] keeps the store non-empty and the ids distinct. *)
Lemma run_commands_well_formed (cmds : list Command) :
  forall (last : Z) (w : World),
    clock_increasing last cmds ->
    well_formed last (cells (state w)) ->
    exists last', well_formed last' (cells (state (exec (run_commands cmds) w))).
Proof.
  induction cmds as [|c cmds IH]; intros last w Hclock Hwf.
  - exists last. exact Hwf.
  - unfold run_commands. simpl for_of. rewrite exec_bind.
    destruct c as [now | cellId]; simpl in Hclock.
    + destruct Hclock as [Hlt Hclock].
      apply (IH now); [exact Hclock | apply (addCell_well_formed last); assumption].
    + apply (IH last); [exact Hclock | apply deleteCell_well_formed; exact Hwf].
Qed.

Lemma store_after_well_formed (config : Config.t) (cmds : list Command) :
  clock_increasing 1 cmds ->
  NoDup (map Cell.id (store_after config cmds)) /\ store_after config cmds <> [].
Proof.
  intros Hclock.
  destruct (run_commands_well_formed cmds 1 (initial_world config) Hclock)
    as (last' & Hnd & Hne & _).
  - repeat split.
    + repeat constructor. intros [].
    + discriminate.
    + intros i [<-|[]]. exists 1. split; [lia | reflexivity].
  - split; assumption.
Qed.

(** ** Properties of the specification *)

Lemma filter_orchestrated_first (p : Event -> bool) (tr : list Event) :
  (forall e, p e = true -> orchestrated e = true) ->
  filter p (filter orchestrated tr) = filter p tr.
Proof.
  intros Hp. induction tr as [|e tr IH]; [reflexivity|]. simpl.
  destruct (orchestrated e) eqn:Ho; simpl; rewrite IH; [reflexivity|].
  destruct (p e) eqn:Hpe; [|reflexivity].
  rewrite (Hp e Hpe) in Ho. discriminate.
Qed.

Lemma is_attach_orchestrated (cellId : string) (e : Event) :
  is_attach cellId e = true -> orchestrated e = true.
Proof. destruct e as [[]| | | | | | |]; simpl; intros H; try discriminate; reflexivity. Qed.

Lemma is_history_append_orchestrated (e : Event) :
  is_history_append e = true -> orchestrated e = true.
Proof. destruct e as [|[]| | | | | |]; simpl; intros H; try discriminate; reflexivity. Qed.

Lemma is_refresh_orchestrated (e : Event) :
  is_refresh e = true -> orchestrated e = true.
Proof. destruct e; simpl; intros H; try discriminate; reflexivity. Qed.

Lemma blank_not_schema_mutating (cell : Cell.t) :
  nonblank cell = false -> schema_mutating (Cell.query cell) = false.
Proof.
  unfold nonblank, schema_mutating.
  destruct (JS.trim (Cell.query cell)); [reflexivity | discriminate].
Qed.

(** C1 (as amended).  During a run over a store with pairwise distinct
    ids, the orchestrator acts on the non-empty cells one after the other
    in store order: for each cell, mark executing, execute request, result
    attached, then - only when the request resolved - the history append
    and, for a successful CREATE TABLE / DROP TABLE, the dispatch of the
    table refresh, then the 100 ms pause.  So for consecutive non-empty
    cells [ci], [cj] all of these events of [ci] and the pause come
    directly before the request of [cj].  The response of the refresh is
    not part of this sequence: it is not awaited. *)
Theorem executeAllCells_sequential
    (config : Config.t) (sessionId : string) (env : Env)
    (cs : list Cell.t) (w : World) :
  NoDup (map Cell.id cs) ->
  let tr := filter orchestrated
              (trace (exec (executeAllCells config sessionId env cs) w)) in
  tr = filter orchestrated (trace w)
       ++ [SetIsRunningAll true]
       ++ sequential_run config sessionId env (filter nonblank cs) (awaits w)
       ++ [SetIsRunningAll false]
  /\ forall pre ci cj post,
       filter nonblank cs = pre ++ ci :: cj :: post ->
       exists before after n,
         tr = before
              ++ cell_events config sessionId env ci n
              ++ [SetTimeout 100]
              ++ [SetCells (MarkExecuting (Cell.id cj));
                  PostExecute (Cell.query cj) sessionId]
              ++ after.
Proof.
  intros Hnd tr.
  assert (Htr : tr = filter orchestrated (trace w)
                     ++ [SetIsRunningAll true]
                     ++ sequential_run config sessionId env (filter nonblank cs) (awaits w)
                     ++ [SetIsRunningAll false])
    by (apply executeAllCells_trace; exact Hnd).
  split; [exact Htr|].
  intros pre ci cj post Hsplit.
  rewrite Hsplit, sequential_run_app, !sequential_run_cons in Htr.
  set (n := (awaits w + 2 * List.length pre)%nat) in Htr.
  exists (filter orchestrated (trace w) ++ [SetIsRunningAll true]
          ++ sequential_run config sessionId env pre (awaits w)).
  exists (skipn 2 (cell_events config sessionId env cj (S (S n)))
          ++ [SetTimeout 100]
          ++ sequential_run config sessionId env post (S (S (S (S n))))
          ++ [SetIsRunningAll false]).
  exists n.
  rewrite Htr. rewrite <- !app_assoc. reflexivity.
Qed.

(** C2.  A call of [executeCell] that passes its guard ends, whatever the
    request settles to and whatever ran while it was pending, with every
    cell of that id not executing and holding a result, and it has left
    the executing state exactly once: exactly one result-attaching update
    for that id was issued. *)
Theorem executeCell_leaves_executing_once
    (config : Config.t) (sessionId : string) (env : Env)
    (cs : list Cell.t) (cellId : string) (cell : Cell.t) (w : World) :
  find (fun c => (Cell.id c =? cellId)%string) cs = Some cell ->
  nonblank cell = true ->
  let w' := exec (executeCell config sessionId env cs cellId) w in
  (forall c, In c (cells (state w')) -> Cell.id c = cellId ->
     Cell.isExecuting c = false /\ exists r, Cell.result c = Some r)
  /\ List.length (filter (is_attach cellId) (trace w'))
     = S (List.length (filter (is_attach cellId) (trace w))).
Proof.
  intros Hf Hnb w'. split.
  - intros c Hin Hid. subst w'. unfold exec in Hin.
    rewrite (executeCell_unfold config sessionId env cs cellId cell w Hf Hnb) in Hin.
    fold (exec (executeCell_resume config env cell cellId (settle_post env (awaits w)))
               (resumed env (at_request sessionId cell cellId w))) in Hin.
    rewrite executeCell_resume_cells in Hin. simpl in Hin.
    apply in_map_iff in Hin as (c0 & <- & _).
    unfold on_cell in *. destruct (Cell.id c0 =? cellId)%string eqn:Heq.
    + split; [reflexivity | eexists; reflexivity].
    + apply String.eqb_neq in Heq. contradiction.
  - destruct (executeCell_trace config sessionId env cs cellId cell w Hf Hnb) as [Ht _].
    fold w' in Ht.
    rewrite <- (filter_orchestrated_first (is_attach cellId) (trace w'))
      by apply is_attach_orchestrated.
    rewrite Ht, filter_app, length_app.
    rewrite (filter_orchestrated_first (is_attach cellId) (trace w))
      by apply is_attach_orchestrated.
    destruct (find_by_id cs cellId cell Hf) as [_ Hid].
    unfold cell_events. rewrite Hid.
    destruct (settle_post env (awaits w)) as [result|error]; simpl;
      rewrite String.eqb_refl; simpl.
    + destruct (refreshes_tables result (Cell.query cell)); simpl; lia.
    + lia.
Qed.

(** C4 (as amended).  A call of [executeCell] that issues its request
    appends exactly one history entry when the request resolves with a
    response, successful or not, and none when the request is rejected
    (transport failure): the [catch] block does not touch the history. *)
Theorem executeCell_history_append
    (config : Config.t) (sessionId : string) (env : Env)
    (cs : list Cell.t) (cellId : string) (cell : Cell.t) (w : World) :
  find (fun c => (Cell.id c =? cellId)%string) cs = Some cell ->
  nonblank cell = true ->
  let w' := exec (executeCell config sessionId env cs cellId) w in
  match settle_post env (awaits w) with
  | Resolved result =>
      let item := historyItem_of cell (date_now env (S (awaits w))) result in
      filter is_history_append (trace w')
      = filter is_history_append (trace w)
        ++ [SetHistory (Prepend (Config.MAX_HISTORY_ITEMS config) item)]
      /\ history (state w')
         = item :: JS.slice 0 (Config.MAX_HISTORY_ITEMS config - 1) (history (state w))
  | Rejected _ =>
      filter is_history_append (trace w') = filter is_history_append (trace w)
      /\ history (state w') = history (state w)
  end.
Proof.
  intros Hf Hnb w'.
  destruct (executeCell_trace config sessionId env cs cellId cell w Hf Hnb) as [Ht _].
  fold w' in Ht.
  assert (Hh : history (state w')
               = match settle_post env (awaits w) with
                 | Resolved result =>
                     apply_history
                       (Prepend (Config.MAX_HISTORY_ITEMS config)
                                (historyItem_of cell (date_now env (S (awaits w))) result))
                       (history (state w))
                 | Rejected _ => history (state w)
                 end).
  { subst w'. unfold exec.
    rewrite (executeCell_unfold config sessionId env cs cellId cell w Hf Hnb).
    fold (exec (executeCell_resume config env cell cellId (settle_post env (awaits w)))
               (resumed env (at_request sessionId cell cellId w))).
    rewrite executeCell_resume_history, resumed_history, resumed_awaits.
    reflexivity. }
  assert (Hfilter : filter is_history_append (trace w')
                    = filter is_history_append (trace w)
                      ++ filter is_history_append
                           (cell_events config sessionId env cell (awaits w))).
  { rewrite <- (filter_orchestrated_first is_history_append (trace w'))
      by apply is_history_append_orchestrated.
    rewrite Ht, filter_app.
    rewrite (filter_orchestrated_first is_history_append (trace w))
      by apply is_history_append_orchestrated.
    reflexivity. }
  unfold cell_events in Hfilter.
  destruct (settle_post env (awaits w)) as [result|error]; cbv zeta.
  - split; [|exact Hh]. rewrite Hfilter. simpl.
    destruct (refreshes_tables result (Cell.query cell)); reflexivity.
  - split; [|exact Hh]. rewrite Hfilter. simpl. apply app_nil_r.
Qed.

(** C5 (as amended).  [executeCell] of the current render is a no-op - no
    event, no state change - when the targeted cell's query is empty or
    white space only.  It has no check of [isExecuting]: what keeps an
    executing cell from being run again is the disabled Run button, so a
    click on the Run button is a no-op when the cell is executing or its
    query is blank. *)
Theorem runOne_noop_on_blank_query
    (config : Config.t) (sessionId : string) (env : Env)
    (cellId : string) (cell : Cell.t) (w : World) :
  find (fun c => (Cell.id c =? cellId)%string) (cells (state w)) = Some cell ->
  (whitespace_only (Cell.query cell) = true ->
     runOne config sessionId env cellId w = (tt, w))
  /\ (Cell.isExecuting cell = true \/ whitespace_only (Cell.query cell) = true ->
     click_run config sessionId env cellId w = (tt, w)).
Proof.
  intros Hf. split.
  - intros Hws. unfold runOne, bind, get_cells.
    apply executeCell_skips. rewrite Hf.
    unfold nonblank. rewrite trim_blank, Hws. reflexivity.
  - intros Hguard. unfold click_run, bind, get_cells. rewrite Hf.
    unfold run_button_disabled. rewrite trim_blank.
    destruct Hguard as [-> | ->]; [reflexivity|].
    rewrite orb_true_r. reflexivity.
Qed.

Section Requests.

Variable config : Config.t.
Variable sessionId : string.
Variable env : Env.

Lemma posts_of_cell_events (cell : Cell.t) (n : nat) :
  posts_of (cell_events config sessionId env cell n) = [(Cell.query cell, sessionId)].
Proof.
  unfold cell_events. destruct (settle_post env n) as [result|error]; simpl.
  - destruct (refreshes_tables result (Cell.query cell)); reflexivity.
  - reflexivity.
Qed.

Lemma attached_of_cell_events (cell : Cell.t) (n : nat) :
  attached_of (cell_events config sessionId env cell n) = [Cell.id cell].
Proof.
  unfold cell_events. destruct (settle_post env n) as [result|error]; simpl.
  - destruct (refreshes_tables result (Cell.query cell)); reflexivity.
  - reflexivity.
Qed.

(** The requests and results of one call of [executeCell], whatever the
    environment does. *)
Lemma executeCell_requests (cs : list Cell.t) (cellId : string) (w : World) :
  let w' := exec (executeCell config sessionId env cs cellId) w in
  let ran :=
    match find (fun c => (Cell.id c =? cellId)%string) cs with
    | Some target => if nonblank target then [target] else []
    | None => []
    end in
  posts_of (trace w')
  = posts_of (trace w) ++ map (fun c => (Cell.query c, sessionId)) ran
  /\ attached_of (trace w') = attached_of (trace w) ++ map Cell.id ran.
Proof.
  cbv zeta.
  destruct (find (fun c => (Cell.id c =? cellId)%string) cs) as [target|] eqn:Hf.
  - destruct (nonblank target) eqn:Hnb.
    + destruct (executeCell_trace config sessionId env cs cellId target w Hf Hnb)
        as [Ht _].
      rewrite <- (posts_of_orchestrated (trace (exec _ w))).
      rewrite <- (attached_of_orchestrated (trace (exec _ w))).
      rewrite Ht, posts_of_app, attached_of_app.
      rewrite posts_of_orchestrated, attached_of_orchestrated.
      rewrite posts_of_cell_events, attached_of_cell_events.
      split; reflexivity.
    + unfold exec. rewrite executeCell_skips by (rewrite Hf; exact Hnb).
      simpl. rewrite !app_nil_r. split; reflexivity.
  - unfold exec. rewrite executeCell_skips by (rewrite Hf; exact I).
    simpl. rewrite !app_nil_r. split; reflexivity.
Qed.

Lemma sleep_requests (ms : Z) (w : World) :
  posts_of (trace (exec (sleep env ms) w)) = posts_of (trace w)
  /\ attached_of (trace (exec (sleep env ms) w)) = attached_of (trace w).
Proof.
  destruct (sleep_trace env ms w) as [Ht _].
  rewrite <- (posts_of_orchestrated (trace (exec _ w))).
  rewrite <- (attached_of_orchestrated (trace (exec _ w))).
  rewrite Ht, posts_of_app, attached_of_app.
  rewrite posts_of_orchestrated, attached_of_orchestrated.
  simpl. rewrite !app_nil_r. split; reflexivity.
Qed.

Lemma loop_requests (cs todo : list Cell.t) :
  forall w,
    let w' := exec (for_of todo (loop_body config sessionId env cs)) w in
    posts_of (trace w')
    = posts_of (trace w)
      ++ map (fun c => (Cell.query c, sessionId)) (planned_cells cs todo)
    /\ attached_of (trace w')
       = attached_of (trace w) ++ map Cell.id (planned_cells cs todo).
Proof.
  induction todo as [|c todo IH]; intros w; cbv zeta.
  - simpl. rewrite !app_nil_r. split; reflexivity.
  - simpl for_of. rewrite exec_bind.
    destruct (IH (exec (loop_body config sessionId env cs c) w)) as [IHp IHa].
    rewrite IHp, IHa. unfold planned_cells. simpl flat_map.
    fold (planned_cells cs todo). rewrite !map_app, !app_assoc.
    unfold loop_body. fold (nonblank c). destruct (nonblank c).
    + rewrite exec_bind.
      destruct (sleep_requests 100
                  (exec (executeCell config sessionId env cs (Cell.id c)) w)) as [Sp Sa].
      destruct (executeCell_requests cs (Cell.id c) w) as [Ep Ea].
      rewrite Sp, Sa, Ep, Ea. split; reflexivity.
    + simpl. rewrite !app_nil_r. split; reflexivity.
Qed.

End Requests.

Lemma planned_cells_distinct_ids (cs todo : list Cell.t) :
  NoDup (map Cell.id cs) ->
  (forall c, In c todo -> In c cs) ->
  planned_cells cs todo = filter nonblank todo.
Proof.
  intros Hnd. induction todo as [|c todo IH]; intros Hsub; [reflexivity|].
  unfold planned_cells. simpl. fold (planned_cells cs todo).
  rewrite IH by (intros c' Hc'; apply Hsub; right; exact Hc').
  rewrite (find_by_id_NoDup cs c Hnd (Hsub c (or_introl eq_refl))).
  destruct (nonblank c); reflexivity.
Qed.

(** C6.  A run is fail-soft.  Whatever each request settles to (success,
    engine failure, transport failure) and whatever else happens during
    the run, the run issues the same execute requests and attaches a
    result for each of them: for every non-empty cell in store order, the
    request of the cell the store finds under its id.  With pairwise
    distinct ids these are all the non-empty cells of the store. *)
Theorem executeAllCells_fail_soft
    (config : Config.t) (sessionId : string) (cs : list Cell.t) :
  (forall (env : Env) (w : World),
     let w' := exec (executeAllCells config sessionId env cs) w in
     posts_of (trace w')
     = posts_of (trace w)
       ++ map (fun c => (Cell.query c, sessionId)) (planned_cells cs cs)
     /\ attached_of (trace w')
        = attached_of (trace w) ++ map Cell.id (planned_cells cs cs))
  /\ (NoDup (map Cell.id cs) -> planned_cells cs cs = filter nonblank cs).
Proof.
  split.
  - intros env w. cbv zeta. unfold executeAllCells.
    rewrite exec_bind, exec_bind.
    change (fun cell : Cell.t =>
              if JS.truthy (JS.trim (Cell.query cell))
              then executeCell config sessionId env cs (Cell.id cell) ;; sleep env 100
              else ret tt) with (loop_body config sessionId env cs).
    set (w1 := exec (setIsRunningAll true) w).
    set (w2 := exec (for_of cs (loop_body config sessionId env cs)) w1).
    change (trace (exec (setIsRunningAll false) w2))
      with (trace w2 ++ [SetIsRunningAll false]).
    rewrite posts_of_app, attached_of_app. subst w2.
    destruct (loop_requests config sessionId env cs cs w1) as [Hp Ha].
    rewrite Hp, Ha. subst w1. unfold exec. simpl.
    rewrite posts_of_app, attached_of_app. simpl. rewrite !app_nil_r.
    split; reflexivity.
  - intros Hnd. apply planned_cells_distinct_ids; auto.
Qed.


(** C7.  With a configured maximum [H] of at least one: an append puts
    the new entry first and leaves at most [H] entries; a log within the
    bound stays within it under any number of appends; and after
    [H + k] appends, [k >= 1], the log holds exactly [H] entries, the
    first being the one appended last. *)
Theorem history_bounded_most_recent_first
    (H : Z) (items log : list QueryHistory.t) :
  1 <= H ->
  (forall item prev,
     hd_error (apply_history (Prepend H item) prev) = Some item
     /\ Z.of_nat (List.length (apply_history (Prepend H item) prev)) <= H)
  /\ (Z.of_nat (List.length log) <= H ->
      Z.of_nat (List.length (append_all H items log)) <= H)
  /\ (forall k earlier last,
        1 <= k ->
        items = earlier ++ [last] ->
        Z.of_nat (List.length items) = H + k ->
        Z.of_nat (List.length (append_all H items log)) = H
        /\ hd_error (append_all H items log) = Some last).
Proof.
  intros HH. repeat split.
  - rewrite prepend_length by exact HH. lia.
  - intros Hlog. destruct items as [|i items'].
    + exact Hlog.
    + rewrite append_all_length by (exact HH || discriminate). lia.
  - subst items. rewrite append_all_length; [lia | exact HH |].
    intros Heq. apply app_eq_nil in Heq as [_ Heq]. discriminate.
  - subst items. rewrite append_all_head.
    + rewrite rev_app_distr. reflexivity.
    + intros Heq. apply app_eq_nil in Heq as [_ Heq]. discriminate.
Qed.

(** C8.  A call of [executeCell] on a cell it finds dispatches a table
    refresh exactly when the request resolved with [success] and the
    trimmed query begins, ignoring letter case, with CREATE TABLE or DROP
    TABLE; otherwise it dispatches none.  The test of the code accepts the
    lower-case, indented CREATE TABLE statement of the specification when
    it succeeded, rejects its SELECT statement, and rejects the CREATE
    TABLE statement when it failed. *)
Theorem schema_refresh_trigger
    (config : Config.t) (sessionId : string) (env : Env)
    (cs : list Cell.t) (cellId : string) (cell : Cell.t) (w : World) :
  find (fun c => (Cell.id c =? cellId)%string) cs = Some cell ->
  let w' := exec (executeCell config sessionId env cs cellId) w in
  filter is_refresh (trace w')
  = filter is_refresh (trace w)
    ++ match settle_post env (awaits w) with
       | Resolved result =>
           if QueryResult.success result && schema_mutating (Cell.query cell)
           then [GetTables] else []
       | Rejected _ => []
       end
  /\ refreshes_tables ok_result "  create table t (id int primary key);" = true
  /\ refreshes_tables ok_result "SELECT * FROM t;" = false
  /\ refreshes_tables engine_failure "  create table t (id int primary key);" = false.
Proof.
  intros Hf w'. split; [|repeat split].
  destruct (nonblank cell) eqn:Hnb.
  - destruct (executeCell_trace config sessionId env cs cellId cell w Hf Hnb) as [Ht _].
    fold w' in Ht.
    rewrite <- (filter_orchestrated_first is_refresh (trace w'))
      by apply is_refresh_orchestrated.
    rewrite Ht, filter_app.
    rewrite (filter_orchestrated_first is_refresh (trace w))
      by apply is_refresh_orchestrated.
    f_equal. unfold cell_events.
    destruct (settle_post env (awaits w)) as [result|error]; simpl; [|reflexivity].
    rewrite refreshes_tables_spec.
    destruct (QueryResult.success result && schema_mutating (Cell.query cell));
      reflexivity.
  - subst w'. unfold exec. rewrite executeCell_skips by (rewrite Hf; exact Hnb).
    simpl. rewrite (blank_not_schema_mutating cell Hnb).
    destruct (settle_post env (awaits w)); rewrite ?andb_false_r, app_nil_r; reflexivity.
Qed.

(** C10.  [executeCell] of the current render, called with an id that no
    cell of the store has, returns at once: no request, no event, the
    world unchanged. *)
Theorem runOne_unknown_id_is_noop
    (config : Config.t) (sessionId : string) (env : Env)
    (cellId : string) (w : World) :
  (forall c, In c (cells (state w)) -> Cell.id c <> cellId) ->
  runOne config sessionId env cellId w = (tt, w).
Proof.
  intros Hnone. unfold runOne, bind, get_cells.
  apply executeCell_skips.
  destruct (find _ (cells (state w))) as [cell|] eqn:Hf; [|exact I].
  destruct (find_by_id _ _ _ Hf) as [Hin Hid].
  exfalso. exact (Hnone cell Hin Hid).
Qed.

(** ** The claims at concrete pages *)

(** C1 as stated fails: with a CREATE TABLE cell followed by a SELECT
    cell, and a table fetch that takes longer than the pause, the request
    of the second cell is issued while the refresh triggered by the first
    is still outstanding; its response is handled afterwards. *)
Lemma refresh_settles_after_next_request :
  posts_wait_for_refresh 0 (trace slow_refresh_run) = false
  /\ map label (trace slow_refresh_run)
     = ["run all starts"; "executing cell-1";
        "POST CREATE TABLE t (id INT PRIMARY KEY);"; "result cell-1";
        "setHistory"; "loading tables"; "GET tables"; "pause";
        "executing cell-1700000000000"; "POST SELECT * FROM t;"; "setTables";
        "tables loaded"; "result cell-1700000000000"; "setHistory"; "pause";
        "run all ends"]%string.
Proof. split; vm_compute; reflexivity. Qed.

Lemma executeAllCells_sequential_witness :
  NoDup (map Cell.id ddl_then_select)
  /\ exists before after n,
       filter orchestrated (trace slow_refresh_run)
       = before
         ++ cell_events default_config demo_session slow_refresh
              (cell_of "cell-1" "CREATE TABLE t (id INT PRIMARY KEY);" false) n
         ++ [SetTimeout 100]
         ++ [SetCells (MarkExecuting "cell-1700000000000");
             PostExecute "SELECT * FROM t;" demo_session]
         ++ after.
Proof.
  assert (Hnd : NoDup (map Cell.id ddl_then_select)) by distinct_ids.
  split; [exact Hnd|].
  exact (proj2 (executeAllCells_sequential default_config demo_session slow_refresh
                  ddl_then_select (world_of ddl_then_select) Hnd)
               [] (cell_of "cell-1" "CREATE TABLE t (id INT PRIMARY KEY);" false)
               (cell_of "cell-1700000000000" "SELECT * FROM t;" false) []
               eq_refl).
Defined.

Lemma executeCell_leaves_executing_once_witness :
  map Cell.id (cells (state rejected_run)) = ["cell-1"%string]
  /\ (forall c, In c (cells (state rejected_run)) -> Cell.id c = "cell-1"%string ->
        Cell.isExecuting c = false /\ exists r, Cell.result c = Some r)
  /\ List.length (filter (is_attach "cell-1") (trace rejected_run)) = 1%nat.
Proof.
  split; [reflexivity|].
  exact (executeCell_leaves_executing_once default_config demo_session
           (calm (Rejected network_error)) (initial_cells default_config) "cell-1"
           (cell_of "cell-1" "SELECT * FROM users;" false)
           (world_of (initial_cells default_config)) eq_refl eq_refl).
Defined.

(** C3: two cells added within the same millisecond share an id, and one
    delete then removes both; after deleting the first cell as well the
    store is empty. *)
Theorem delete_of_colliding_ids_empties_store :
  store_after default_config
    [Add 1700000000000; Add 1700000000000;
     Delete "cell-1"; Delete "cell-1700000000000"]
  = [].
Proof. vm_compute. reflexivity. Qed.

(** C4 as stated fails: a request that is rejected (network failure) is
    issued and gets its error result attached, but no history entry is
    appended. *)
Lemma rejected_request_appends_no_history :
  posts_of (trace rejected_run) = [("SELECT * FROM users;"%string, demo_session)]
  /\ attached_of (trace rejected_run) = ["cell-1"%string]
  /\ filter is_history_append (trace rejected_run) = []
  /\ history (state rejected_run) = [].
Proof. repeat split. Qed.

Lemma executeCell_history_append_witness :
  filter is_history_append
    (trace (exec (executeCell default_config demo_session
                    (calm (Resolved engine_failure))
                    (initial_cells default_config) "cell-1") fresh_page))
  = [SetHistory
       (Prepend 20
          (historyItem_of (cell_of "cell-1" "SELECT * FROM users;" false)
             1700000000000 engine_failure))]
  /\ history
       (state (exec (executeCell default_config demo_session
                       (calm (Resolved engine_failure))
                       (initial_cells default_config) "cell-1") fresh_page))
     = [historyItem_of (cell_of "cell-1" "SELECT * FROM users;" false)
          1700000000000 engine_failure].
Proof.
  exact (executeCell_history_append default_config demo_session
           (calm (Resolved engine_failure)) (initial_cells default_config) "cell-1"
           (cell_of "cell-1" "SELECT * FROM users;" false)
           (world_of (initial_cells default_config)) eq_refl eq_refl).
Defined.

(** C5 as stated fails: [executeCell] called for a cell that is already
    executing marks it executing again and issues a second request. *)
Lemma runOne_reexecutes_executing_cell :
  map Cell.isExecuting (cells (state executing_page)) = [true]
  /\ trace executing_page = []
  /\ map label (trace rerun)
     = ["executing cell-1"; "POST SELECT * FROM users;"; "result cell-1";
        "setHistory"]%string
  /\ posts_of (trace rerun) = [("SELECT * FROM users;"%string, demo_session)]
  /\ runOne default_config demo_session (calm (Resolved ok_result)) "cell-1"
       executing_page
     <> (tt, executing_page).
Proof.
  repeat split. intros Heq.
  apply (f_equal (fun r => awaits (snd r))) in Heq. discriminate Heq.
Qed.

Lemma runOne_noop_on_blank_query_witness :
  runOne default_config demo_session (calm (Resolved ok_result)) "cell-1" blank_page
  = (tt, blank_page)
  /\ click_run default_config demo_session (calm (Resolved ok_result)) "cell-1" blank_page
     = (tt, blank_page).
Proof.
  pose proof (runOne_noop_on_blank_query default_config demo_session
                (calm (Resolved ok_result)) "cell-1" (cell_of "cell-1" "   " false)
                blank_page eq_refl) as [Hrun Hclick].
  split; [exact (Hrun eq_refl) | exact (Hclick (or_intror eq_refl))].
Defined.

Lemma executeAllCells_fail_soft_witness :
  NoDup (map Cell.id three_cells)
  /\ posts_of
       (trace (exec (executeAllCells default_config demo_session
                       (scripted [Rejected network_error; Resolved engine_failure])
                       three_cells) (world_of three_cells)))
     = map (fun c => (Cell.query c, demo_session)) (filter nonblank three_cells).
Proof.
  assert (Hnd : NoDup (map Cell.id three_cells)) by distinct_ids.
  split; [exact Hnd|].
  destruct (executeAllCells_fail_soft default_config demo_session three_cells)
    as [Hall Hplan].
  rewrite <- (Hplan Hnd).
  exact (proj1 (Hall (scripted [Rejected network_error; Resolved engine_failure])
                     (world_of three_cells))).
Defined.

Lemma history_bounded_most_recent_first_witness :
  1 <= 2
  /\ Z.of_nat (List.length
                 (append_all 2 [history_item "q1"; history_item "q2"; history_item "q3"] []))
     = 2
  /\ hd_error (append_all 2 [history_item "q1"; history_item "q2"; history_item "q3"] [])
     = Some (history_item "q3").
Proof.
  split; [lia|].
  exact (proj2 (proj2 (history_bounded_most_recent_first 2
                         [history_item "q1"; history_item "q2"; history_item "q3"] []
                         ltac:(lia)))
               1 [history_item "q1"; history_item "q2"] (history_item "q3")
               ltac:(lia) eq_refl eq_refl).
Defined.

Lemma schema_refresh_trigger_witness :
  filter is_refresh
    (trace (exec (executeCell default_config demo_session (calm (Resolved ok_result))
                    [cell_of "cell-1" "  create table t (id int primary key);" false]
                    "cell-1")
                 (world_of
                    [cell_of "cell-1" "  create table t (id int primary key);" false])))
  = [GetTables].
Proof.
  exact (proj1 (schema_refresh_trigger default_config demo_session
                  (calm (Resolved ok_result))
                  [cell_of "cell-1" "  create table t (id int primary key);" false]
                  "cell-1"
                  (cell_of "cell-1" "  create table t (id int primary key);" false)
                  (world_of [cell_of "cell-1" "  create table t (id int primary key);" false])
                  eq_refl)).
Defined.

(** C9: two [addCell] calls that read the same clock value create two
    live cells with the same id. *)
Theorem adds_in_same_millisecond_share_id :
  map Cell.id (store_after default_config [Add 1700000000000; Add 1700000000000])
  = ["cell-1"; "cell-1700000000000"; "cell-1700000000000"]%string
  /\ ~ NoDup (map Cell.id
               (store_after default_config [Add 1700000000000; Add 1700000000000])).
Proof.
  split; [vm_compute; reflexivity|].
  intros Hnd. vm_compute in Hnd.
  apply NoDup_cons_iff in Hnd as [_ Hnd].
  apply NoDup_cons_iff in Hnd as [Hfresh _].
  apply Hfresh. left. reflexivity.
Qed.

Lemma runOne_unknown_id_is_noop_witness :
  runOne default_config demo_session (calm (Resolved ok_result)) "cell-2" fresh_page
  = (tt, fresh_page).
Proof.
  apply (runOne_unknown_id_is_noop default_config demo_session
           (calm (Resolved ok_result)) "cell-2" fresh_page).
  intros c [<-|[]]. discriminate.
Defined.

(** ** Further properties of the callbacks *)

Lemma map_on_cell_field {A : Type} (field : Cell.t -> A) (cellId : string)
    (f : Cell.t -> Cell.t) (cs : list Cell.t) :
  (forall c, field (f c) = field c) ->
  map field (map (on_cell cellId f) cs) = map field cs.
Proof.
  intros Hf. rewrite map_map. apply map_ext. intros c.
  unfold on_cell. destruct (Cell.id c =? cellId)%string; [apply Hf | reflexivity].
Qed.

Lemma filter_other_on_cell (cellId : string) (f : Cell.t -> Cell.t) (cs : list Cell.t) :
  (forall c, Cell.id (f c) = Cell.id c) ->
  filter (other_than cellId) (map (on_cell cellId f) cs)
  = filter (other_than cellId) cs.
Proof.
  intros Hf. induction cs as [|c cs IH]; [reflexivity|].
  simpl.
  assert (Hsame : other_than cellId (on_cell cellId f c) = other_than cellId c)
    by (unfold other_than; rewrite on_cell_id by exact Hf; reflexivity).
  rewrite Hsame, IH.
  destruct (other_than cellId c) eqn:Hother; [|reflexivity].
  unfold other_than in Hother. unfold on_cell.
  destruct (Cell.id c =? cellId)%string; [discriminate | reflexivity].
Qed.

Lemma on_cell_target (cellId : string) (f : Cell.t -> Cell.t) (cs : list Cell.t)
    (P : Cell.t -> Prop) :
  (forall c, Cell.id (f c) = Cell.id c) ->
  (forall c, P (f c)) ->
  forall c, In c (map (on_cell cellId f) cs) -> Cell.id c = cellId -> P c.
Proof.
  intros Hid HP c Hin Hc. apply in_map_iff in Hin as (c0 & <- & _).
  unfold on_cell in *. destruct (Cell.id c0 =? cellId)%string eqn:Heq.
  - apply HP.
  - apply String.eqb_neq in Heq. contradiction.
Qed.

(** Collapsing a cell twice gives back the store as it was, and one toggle
    changes nothing but the collapse flag: ids, queries, results and
    executing flags of all cells stay. *)
Theorem toggleCellCollapse_involutive (cellId : string) (w : World) :
  let w1 := exec (toggleCellCollapse cellId) w in
  let w2 := exec (toggleCellCollapse cellId) w1 in
  cells (state w2) = cells (state w)
  /\ map Cell.id (cells (state w1)) = map Cell.id (cells (state w))
  /\ map Cell.query (cells (state w1)) = map Cell.query (cells (state w))
  /\ map Cell.result (cells (state w1)) = map Cell.result (cells (state w))
  /\ map Cell.isExecuting (cells (state w1)) = map Cell.isExecuting (cells (state w))
  /\ filter (other_than cellId) (cells (state w1))
     = filter (other_than cellId) (cells (state w)).
Proof.
  cbv zeta. unfold exec. simpl.
  repeat split; try (apply map_on_cell_field; reflexivity).
  - rewrite map_map. rewrite <- (map_id (cells (state w))) at 2.
    apply map_ext. intros c. unfold on_cell.
    destruct (Cell.id c =? cellId)%string eqn:Heq; simpl; rewrite Heq; [|reflexivity].
    destruct c as [i q r e col]. unfold with_collapse_flipped. simpl.
    rewrite negb_involutive. reflexivity.
  - apply filter_other_on_cell. reflexivity.
Qed.

(** Editing the query of a cell sets the query of the cells with that id
    and nothing else: ids, results and flags of all cells stay, cells with
    another id stay as they are, and of two edits in a row the last one
    stands. *)
Theorem updateCellQuery_sets_only_the_query (cellId query : string) (w : World) :
  let w' := exec (updateCellQuery cellId query) w in
  map Cell.id (cells (state w')) = map Cell.id (cells (state w))
  /\ map Cell.result (cells (state w')) = map Cell.result (cells (state w))
  /\ map Cell.isExecuting (cells (state w')) = map Cell.isExecuting (cells (state w))
  /\ map Cell.isCollapsed (cells (state w')) = map Cell.isCollapsed (cells (state w))
  /\ (forall c, In c (cells (state w')) -> Cell.id c = cellId -> Cell.query c = query)
  /\ filter (other_than cellId) (cells (state w'))
     = filter (other_than cellId) (cells (state w))
  /\ forall earlier,
       cells (state (exec (updateCellQuery cellId query)
                          (exec (updateCellQuery cellId earlier) w)))
       = cells (state w').
Proof.
  cbv zeta. unfold exec. simpl.
  repeat split; try (apply map_on_cell_field; reflexivity).
  - apply (on_cell_target cellId (with_query query) (cells (state w))
             (fun c => Cell.query c = query)); reflexivity.
  - apply filter_other_on_cell. reflexivity.
  - intros earlier. rewrite map_map. apply map_ext. intros c. unfold on_cell.
    destruct (Cell.id c =? cellId)%string eqn:Heq; simpl; rewrite Heq; reflexivity.
Qed.

(** No state update other than adding and deleting a cell changes the ids
    of the store, their order or their number. *)
Theorem only_add_and_delete_change_ids (u : CellsUpdate) (w : World) :
  structural u = false ->
  map Cell.id (cells (state (exec (setCells u) w))) = map Cell.id (cells (state w))
  /\ List.length (cells (state (exec (setCells u) w))) = List.length (cells (state w)).
Proof.
  intros Hu. unfold exec. simpl.
  pose proof (apply_cells_ids u (cells (state w)) Hu) as Hids.
  split; [exact Hids|].
  rewrite <- (length_map Cell.id), Hids, length_map. reflexivity.
Qed.

Lemma only_add_and_delete_change_ids_witness :
  structural (AttachResult "cell-1" ok_result) = false
  /\ map Cell.id (cells (state (exec (setCells (AttachResult "cell-1" ok_result))
                                     (world_of three_cells))))
     = map Cell.id three_cells.
Proof.
  split; [reflexivity|].
  exact (proj1 (only_add_and_delete_change_ids (AttachResult "cell-1" ok_result)
                  (world_of three_cells) eq_refl)).
Defined.

(** When every add command reads a clock value above all earlier ones
    (and above 1), any sequence of add and delete commands on a fresh
    page leaves a store that is not empty and whose ids are pairwise
    distinct. *)
Theorem increasing_clock_keeps_store_well_formed
    (config : Config.t) (cmds : list Command) :
  clock_increasing 1 cmds ->
  store_after config cmds <> []
  /\ NoDup (map Cell.id (store_after config cmds)).
Proof.
  intros Hclock.
  destruct (store_after_well_formed config cmds Hclock) as [Hnd Hne].
  split; assumption.
Qed.

Lemma increasing_clock_keeps_store_well_formed_witness :
  clock_increasing 1
    [Add 1700000000000; Add 1700000000001;
     Delete "cell-1"; Delete "cell-1700000000000"; Delete "cell-1700000000001"]
  /\ store_after default_config
       [Add 1700000000000; Add 1700000000001;
        Delete "cell-1"; Delete "cell-1700000000000"; Delete "cell-1700000000001"]
     <> []
  /\ NoDup (map Cell.id
              (store_after default_config
                 [Add 1700000000000; Add 1700000000001;
                  Delete "cell-1"; Delete "cell-1700000000000";
                  Delete "cell-1700000000001"])).
Proof.
  assert (Hclock : clock_increasing 1
            [Add 1700000000000; Add 1700000000001;
             Delete "cell-1"; Delete "cell-1700000000000"; Delete "cell-1700000000001"])
    by (simpl; lia).
  split; [exact Hclock|].
  exact (increasing_clock_keeps_store_well_formed default_config _ Hclock).
Defined.

(** [deleteCell] does nothing at all while the page shows at most one
    cell.  Otherwise it removes exactly the cells with the given id: the
    cells that remain are those with another id, in their order, and when
    no cell has the id the store stays as it is. *)
Theorem deleteCell_removes_exactly_that_id
    (rendered : list Cell.t) (cellId : string) (w : World) :
  let w' := exec (deleteCell rendered cellId) w in
  ((List.length rendered <= 1)%nat -> deleteCell rendered cellId w = (tt, w))
  /\ ((1 < List.length rendered)%nat ->
      cells (state w') = filter (other_than cellId) (cells (state w))
      /\ (forall c, In c (cells (state w')) <->
                    In c (cells (state w)) /\ Cell.id c <> cellId)
      /\ ((forall c, In c (cells (state w)) -> Cell.id c <> cellId) ->
          cells (state w') = cells (state w))).
Proof.
  cbv zeta. unfold deleteCell, exec. split.
  - intros Hle. apply Nat.leb_le in Hle. rewrite Hle. reflexivity.
  - intros Hlt. apply Nat.leb_gt in Hlt. rewrite Hlt. simpl.
    split; [reflexivity|]. split.
    + intros c. rewrite filter_In. split; intros [Hin Hid]; split; try exact Hin.
      * apply negb_true_iff, String.eqb_neq in Hid. exact Hid.
      * apply negb_true_iff, String.eqb_neq. exact Hid.
    + intros Hnone. apply forallb_filter_id, forallb_forall. intros c Hin.
      apply negb_true_iff, String.eqb_neq, Hnone, Hin.
Qed.

Lemma deleteCell_removes_exactly_that_id_witness :
  (1 < List.length three_cells)%nat
  /\ cells (state (exec (deleteCell three_cells "cell-1") (world_of three_cells)))
     = filter (other_than "cell-1") three_cells.
Proof.
  assert (Hlen : (1 < List.length three_cells)%nat) by (simpl; lia).
  split; [exact Hlen|].
  exact (proj1 (proj2 (deleteCell_removes_exactly_that_id three_cells "cell-1"
                         (world_of three_cells)) Hlen)).
Defined.

Lemma resetDatabase_resume_spec (resolved : bool) (w : World) :
  let w' := exec (resetDatabase_resume resolved) w in
  if resolved then
    map Cell.id (cells (state w')) = map Cell.id (cells (state w))
    /\ map Cell.query (cells (state w')) = map Cell.query (cells (state w))
    /\ map Cell.isExecuting (cells (state w')) = map Cell.isExecuting (cells (state w))
    /\ map Cell.isCollapsed (cells (state w')) = map Cell.isCollapsed (cells (state w))
    /\ (forall c, In c (cells (state w')) -> Cell.result c = None)
    /\ history (state w') = []
    /\ tables (state w') = tables (state w)
    /\ isLoadingTables (state w') = true
    /\ tables_in_flight w' = S (tables_in_flight w)
    /\ filter is_refresh (trace w') = filter is_refresh (trace w) ++ [GetTables]
  else w' = w.
Proof.
  destruct resolved; cbv zeta; unfold exec; simpl; [|reflexivity].
  repeat split; try (rewrite map_map; apply map_ext; reflexivity).
  - intros c Hin. apply in_map_iff in Hin as (c0 & <- & _). reflexivity.
  - rewrite <- !app_assoc, filter_app. reflexivity.
Qed.

(** A reset that succeeded clears the result of every cell and keeps
    their ids, queries, executing and collapse flags; it empties the
    history log and dispatches one table refresh, the table cache itself
    staying as it was until that refresh answers.  A reset that failed
    changes nothing.  Both are relative to the page as it is when the
    response of the reset request arrives. *)
Theorem resetDatabase_clears_only_on_success (env : Env) (resolved : bool) (w : World) :
  let before := resumed env w in
  let w' := exec (resetDatabase env resolved) w in
  if resolved then
    map Cell.id (cells (state w')) = map Cell.id (cells (state before))
    /\ map Cell.query (cells (state w')) = map Cell.query (cells (state before))
    /\ map Cell.isExecuting (cells (state w'))
       = map Cell.isExecuting (cells (state before))
    /\ map Cell.isCollapsed (cells (state w'))
       = map Cell.isCollapsed (cells (state before))
    /\ (forall c, In c (cells (state w')) -> Cell.result c = None)
    /\ history (state w') = []
    /\ tables (state w') = tables (state before)
    /\ isLoadingTables (state w') = true
    /\ tables_in_flight w' = S (tables_in_flight before)
    /\ filter is_refresh (trace w') = filter is_refresh (trace before) ++ [GetTables]
  else w' = before.
Proof.
  cbv zeta.
  change (exec (resetDatabase env resolved) w)
    with (exec (resetDatabase_resume resolved) (resumed env w)).
  apply (resetDatabase_resume_spec resolved (resumed env w)).
Qed.

Lemma handle_tables_settle_in_flight (r : option TablesData.t) (w : World) (n : nat) :
  tables_in_flight w = S n ->
  let w' := exec (handle (TablesSettle r)) w in
  tables (state w') = tables_after [r] (tables (state w))
  /\ isLoadingTables (state w') = false
  /\ tables_in_flight w' = n
  /\ cells (state w') = cells (state w)
  /\ history (state w') = history (state w).
Proof.
  intros Hn. cbv zeta. unfold exec, handle. rewrite Hn.
  destruct r as [data|]; simpl.
  - unfold loadTables_resume. destruct (TablesData.success data); simpl;
      repeat split; reflexivity.
  - repeat split; reflexivity.
Qed.

(** The table cache is replaced by every successful response of a table
    fetch and by nothing else, so of several fetches in flight the one
    whose response arrives last and is successful decides the cache; a
    rejected fetch or a payload with [success: false] keeps the cache.
    The first response already clears the loading flag. *)
Theorem last_tables_response_wins (rs : list (option TablesData.t)) :
  forall w : World,
    (List.length rs <= tables_in_flight w)%nat ->
    let w' := exec (for_of (map TablesSettle rs) handle) w in
    tables (state w') = tables_after rs (tables (state w))
    /\ tables_in_flight w' = (tables_in_flight w - List.length rs)%nat
    /\ (rs <> [] -> isLoadingTables (state w') = false)
    /\ cells (state w') = cells (state w)
    /\ history (state w') = history (state w).
Proof.
  induction rs as [|r rs IH]; intros w Hlen; cbv zeta.
  - unfold exec. simpl. rewrite Nat.sub_0_r. repeat split. congruence.
  - simpl map.
    change (for_of (TablesSettle r :: map TablesSettle rs) handle)
      with (handle (TablesSettle r) ;; for_of (map TablesSettle rs) handle).
    rewrite exec_bind. cbv beta.
    simpl in Hlen.
    destruct (tables_in_flight w) as [|n] eqn:Hn; [lia|].
    destruct (handle_tables_settle_in_flight r w n Hn) as (Ht & Hl & Hf & Hc & Hh).
    set (w1 := exec (handle (TablesSettle r)) w) in *.
    destruct (IH w1) as (Ht' & Hf' & Hl' & Hc' & Hh'); [lia|].
    rewrite Ht', Hf', Hc', Hh', Ht, Hf, Hc, Hh.
    repeat split.
    intros _. destruct rs as [|r' rs'].
    + exact Hl.
    + apply Hl'. discriminate.
Qed.

Lemma last_tables_response_wins_witness :
  (2 <= tables_in_flight (exec (loadTables ;; loadTables) fresh_page))%nat
  /\ tables (state (exec (for_of
                            (map TablesSettle
                               [Some {| TablesData.success := true; TablesData.tables := [] |};
                                None])
                            handle)
                         (exec (loadTables ;; loadTables) fresh_page)))
     = [].
Proof.
  assert (Hlen : (2 <= tables_in_flight (exec (loadTables ;; loadTables) fresh_page))%nat)
    by (vm_compute; lia).
  split; [exact Hlen|].
  exact (proj1 (last_tables_response_wins
                  [Some {| TablesData.success := true; TablesData.tables := [] |}; None]
                  (exec (loadTables ;; loadTables) fresh_page) Hlen)).
Defined.

(** The response of the history request replaces the log by the server's
    list, by the empty list when the payload has no [queries], and a
    rejected request leaves everything as it is.  In particular an entry
    that an execution appended before the response arrived is lost. *)
Theorem loadHistory_replaces_the_log
    (config : Config.t) (env : Env) (response : option HistoryData.t) (w : World) :
  let w' := exec (loadHistory_resume response) w in
  match response with
  | None => w' = w
  | Some data =>
      history (state w')
      = match HistoryData.queries data with Some queries => queries | None => [] end
      /\ cells (state w') = cells (state w)
      /\ tables (state w') = tables (state w)
      /\ forall cell cellId result,
           history (state (exec (loadHistory_resume response)
                             (exec (executeCell_resume config env cell cellId
                                      (Resolved result)) w)))
           = history (state w')
  end.
Proof.
  destruct response as [data|]; cbv zeta; unfold exec; simpl; [|reflexivity].
  repeat split.
Qed.

(** The result attached after a rejected request always carries a
    non-empty error text: the error of the response body when it is
    present and not empty, else the message of the error object when it is
    present and not empty, else the text 'Unknown error'; and it is marked
    unsuccessful with no rows, columns, message or row count. *)
Theorem errorResult_always_has_text (error : AxiosError.t) :
  QueryResult.success (errorResult error) = false
  /\ QueryResult.result (errorResult error) = None
  /\ QueryResult.columns (errorResult error) = None
  /\ QueryResult.message (errorResult error) = None
  /\ QueryResult.affected_rows (errorResult error) = None
  /\ (exists text, QueryResult.error (errorResult error) = Some text
                   /\ JS.truthy text = true)
  /\ (forall text, AxiosError.response_data_error error = Some text ->
        JS.truthy text = true ->
        QueryResult.error (errorResult error) = Some text)
  /\ (forall text,
        (forall t, AxiosError.response_data_error error = Some t -> JS.truthy t = false) ->
        AxiosError.message error = Some text ->
        JS.truthy text = true ->
        QueryResult.error (errorResult error) = Some text)
  /\ ((forall t, AxiosError.response_data_error error = Some t -> JS.truthy t = false) ->
      (forall t, AxiosError.message error = Some t -> JS.truthy t = false) ->
      QueryResult.error (errorResult error) = Some "Unknown error"%string).
Proof.
  destruct error as [[b|] [m|]]; unfold errorResult, JS.or_else; simpl;
    try destruct (JS.truthy b) eqn:Hb; try destruct (JS.truthy m) eqn:Hm;
    simpl; rewrite ?Hb, ?Hm;
    repeat split;
    try (eexists; split; [reflexivity | assumption || reflexivity]);
    intros;
    repeat match goal with
           | H : forall t, Some ?x = Some t -> _ |- _ => specialize (H x eq_refl)
           | H : Some _ = Some _ |- _ => injection H as <-
           | H : None = Some _ |- _ => discriminate H
           end;
    congruence.
Qed.

Lemma errorResult_text (error : AxiosError.t) :
  exists text, QueryResult.error (errorResult error) = Some text /\ JS.truthy text = true.
Proof.
  destruct error as [[b|] [m|]]; unfold errorResult, JS.or_else; simpl;
    try destruct (JS.truthy b) eqn:Hb; try destruct (JS.truthy m) eqn:Hm;
    simpl; rewrite ?Hb, ?Hm;
    eexists; split; try reflexivity; assumption.
Qed.

Lemma executeCell_cells
    (config : Config.t) (sessionId : string) (env : Env)
    (cs : list Cell.t) (cellId : string) (cell : Cell.t) (w : World) :
  find (fun c => (Cell.id c =? cellId)%string) cs = Some cell ->
  nonblank cell = true ->
  cells (state (exec (executeCell config sessionId env cs cellId) w))
  = apply_cells (AttachResult cellId (attached_result (settle_post env (awaits w))))
      (cells (state (resumed env (at_request sessionId cell cellId w)))).
Proof.
  intros Hf Hnb. unfold exec.
  rewrite (executeCell_unfold config sessionId env cs cellId cell w Hf Hnb).
  apply (executeCell_resume_cells config env cell cellId (settle_post env (awaits w))).
Qed.

(** What [executeCell] attaches is the response as it came: the payload of
    a resolved request, successful or not, unchanged, and the synthetic
    error result for a rejected one.  The page then shows, for a rejected
    request, an error with a non-empty text; for an unsuccessful payload
    its error, or its message when the error is missing or empty; and for
    a successful payload without rows its message rather than a table. *)
Theorem executeCell_attaches_the_response
    (config : Config.t) (sessionId : string) (env : Env)
    (cs : list Cell.t) (cellId : string) (cell : Cell.t) (w : World) :
  find (fun c => (Cell.id c =? cellId)%string) cs = Some cell ->
  nonblank cell = true ->
  let w' := exec (executeCell config sessionId env cs cellId) w in
  forall c, In c (cells (state w')) -> Cell.id c = cellId ->
    Cell.result c = Some (attached_result (settle_post env (awaits w)))
    /\ match settle_post env (awaits w) with
       | Rejected _ =>
           exists text, cell_output c = ShowError (Some text) /\ JS.truthy text = true
       | Resolved result =>
           (QueryResult.success result = false ->
            cell_output c
            = ShowError (JS.or_else (QueryResult.error result) (QueryResult.message result)))
           /\ (QueryResult.success result = true ->
               QueryResult.result result = None \/ QueryResult.result result = Some [] ->
               cell_output c = ShowMessage (QueryResult.message result))
       end.
Proof.
  intros Hf Hnb w' c Hin Hid. subst w'.
  rewrite (executeCell_cells config sessionId env cs cellId cell w Hf Hnb) in Hin.
  simpl in Hin.
  assert (Hres : Cell.result c = Some (attached_result (settle_post env (awaits w)))).
  { revert c Hin Hid.
    apply (on_cell_target cellId
             (with_result (attached_result (settle_post env (awaits w)))) _
             (fun c => Cell.result c = Some _)); reflexivity. }
  split; [exact Hres|].
  unfold cell_output. rewrite Hres.
  destruct (settle_post env (awaits w)) as [result|error]; simpl.
  - split.
    + intros ->. reflexivity.
    + intros -> [-> | ->]; reflexivity.
  - destruct (errorResult_text error) as (text & Htext & Htruthy).
    exists text. split; [|exact Htruthy].
    unfold errorResult in *. simpl in *. rewrite Htext. simpl. rewrite Htruthy.
    reflexivity.
Qed.

Lemma executeCell_attaches_the_response_witness :
  Cell.result (with_result (errorResult network_error)
                 (cell_of "cell-1" "SELECT * FROM users;" false))
  = Some (errorResult network_error)
  /\ exists text,
       cell_output (with_result (errorResult network_error)
                      (cell_of "cell-1" "SELECT * FROM users;" false))
       = ShowError (Some text)
       /\ JS.truthy text = true.
Proof.
  exact (executeCell_attaches_the_response default_config demo_session
           (calm (Rejected network_error)) (initial_cells default_config) "cell-1"
           (cell_of "cell-1" "SELECT * FROM users;" false) fresh_page eq_refl eq_refl
           (with_result (errorResult network_error)
              (cell_of "cell-1" "SELECT * FROM users;" false))
           (or_introl eq_refl) eq_refl).
Defined.

Lemma resumed_undisturbed (env : Env) (w : World) :
  meanwhile env (awaits w) = [] -> state (resumed env w) = state w.
Proof.
  intros Hm. unfold resumed, suspend. simpl. rewrite Hm. reflexivity.
Qed.

(** Running a cell while nothing else happens touches only the cells
    with its id: the ids, queries and collapse flags of all cells and the
    number of cells stay, and every cell with another id is after the
    call what it was before. *)
Theorem executeCell_leaves_other_cells
    (config : Config.t) (sessionId : string) (env : Env)
    (cs : list Cell.t) (cellId : string) (cell : Cell.t) (w : World) :
  find (fun c => (Cell.id c =? cellId)%string) cs = Some cell ->
  nonblank cell = true ->
  meanwhile env (awaits w) = [] ->
  let w' := exec (executeCell config sessionId env cs cellId) w in
  map Cell.id (cells (state w')) = map Cell.id (cells (state w))
  /\ map Cell.query (cells (state w')) = map Cell.query (cells (state w))
  /\ map Cell.isCollapsed (cells (state w')) = map Cell.isCollapsed (cells (state w))
  /\ filter (other_than cellId) (cells (state w'))
     = filter (other_than cellId) (cells (state w))
  /\ tables (state w') = tables (state w).
Proof.
  intros Hf Hnb Hcalm w'. subst w'.
  assert (Hcells : cells (state (exec (executeCell config sessionId env cs cellId) w))
                   = apply_cells
                       (AttachResult cellId (attached_result (settle_post env (awaits w))))
                       (apply_cells (MarkExecuting cellId) (cells (state w)))).
  { rewrite (executeCell_cells config sessionId env cs cellId cell w Hf Hnb).
    rewrite resumed_undisturbed by exact Hcalm. reflexivity. }
  rewrite Hcells. simpl.
  repeat split; try (rewrite !map_on_cell_field; reflexivity).
  - rewrite !filter_other_on_cell; reflexivity.
  - unfold exec.
    rewrite (executeCell_unfold config sessionId env cs cellId cell w Hf Hnb).
    assert (Ht : forall o w1,
               tables (state (snd (executeCell_resume config env cell cellId o w1)))
               = tables (state w1)).
    { intros [result|error] w1; simpl; [|reflexivity].
      destruct (refreshes_tables result (Cell.query cell)); reflexivity. }
    rewrite Ht, resumed_undisturbed by exact Hcalm. reflexivity.
Qed.

Lemma executeCell_leaves_other_cells_witness :
  meanwhile (calm (Resolved ok_result)) (awaits (world_of three_cells)) = []
  /\ filter (other_than "cell-1")
       (cells (state (exec (executeCell default_config demo_session
                              (calm (Resolved ok_result)) three_cells "cell-1")
                           (world_of three_cells))))
     = filter (other_than "cell-1") three_cells.
Proof.
  split; [reflexivity|].
  exact (proj1 (proj2 (proj2 (proj2
           (executeCell_leaves_other_cells default_config demo_session
              (calm (Resolved ok_result)) three_cells "cell-1"
              (cell_of "cell-1" "SELEC oops" false) (world_of three_cells)
              eq_refl eq_refl eq_refl))))).
Defined.

(** While the request of a cell is pending the cell is marked executing
    and its earlier result is gone, so the page shows no output for it:
    this is the store in which the request is sent, which is what a task
    running during the wait finds.  Cells with another id and the history
    are as before the call. *)
Theorem executeCell_pending_state
    (config : Config.t) (sessionId : string) (env : Env)
    (cs : list Cell.t) (cellId : string) (cell : Cell.t) (w : World) :
  find (fun c => (Cell.id c =? cellId)%string) cs = Some cell ->
  nonblank cell = true ->
  exists pending : World,
    executeCell config sessionId env cs cellId w
    = executeCell_resume config env cell cellId (settle_post env (awaits w))
        (resumed env pending)
    /\ trace pending
       = trace w ++ [SetCells (MarkExecuting cellId);
                     PostExecute (Cell.query cell) sessionId]
    /\ (forall c, In c (cells (state pending)) -> Cell.id c = cellId ->
          Cell.isExecuting c = true /\ Cell.result c = None /\ cell_output c = NoOutput)
    /\ filter (other_than cellId) (cells (state pending))
       = filter (other_than cellId) (cells (state w))
    /\ history (state pending) = history (state w).
Proof.
  intros Hf Hnb. exists (at_request sessionId cell cellId w).
  split; [apply executeCell_unfold; assumption|].
  unfold at_request, exec. simpl. repeat split.
  - rewrite <- app_assoc. reflexivity.
  - revert H H0.
    apply (on_cell_target cellId with_executing (cells (state w))
             (fun c => Cell.isExecuting c = true)); reflexivity.
  - revert H H0.
    apply (on_cell_target cellId with_executing (cells (state w))
             (fun c => Cell.result c = None)); reflexivity.
  - revert H H0.
    apply (on_cell_target cellId with_executing (cells (state w))
             (fun c => cell_output c = NoOutput)); reflexivity.
  - apply filter_other_on_cell. reflexivity.
Qed.

Lemma executeCell_pending_state_witness :
  exists pending : World,
    executeCell default_config demo_session (calm (Resolved ok_result))
      (initial_cells default_config) "cell-1" fresh_page
    = executeCell_resume default_config (calm (Resolved ok_result))
        (cell_of "cell-1" "SELECT * FROM users;" false) "cell-1"
        (Resolved ok_result) (resumed (calm (Resolved ok_result)) pending)
    /\ trace pending
       = [SetCells (MarkExecuting "cell-1");
          PostExecute "SELECT * FROM users;" demo_session].
Proof.
  destruct (executeCell_pending_state default_config demo_session
              (calm (Resolved ok_result)) (initial_cells default_config) "cell-1"
              (cell_of "cell-1" "SELECT * FROM users;" false) fresh_page
              eq_refl eq_refl) as (pending & Hrun & Htrace & _).
  exists pending. split; [exact Hrun | exact Htrace].
Defined.

(** The Run button and the guard of [executeCell] agree: a click on an
    enabled Run button always sends exactly one execute request, with the
    query and session of the page, and attaches exactly one result to
    that cell id. *)
Theorem click_on_enabled_run_button_sends_one_request
    (config : Config.t) (sessionId : string) (env : Env)
    (cellId : string) (cell : Cell.t) (w : World) :
  find (fun c => (Cell.id c =? cellId)%string) (cells (state w)) = Some cell ->
  run_button_disabled cell = false ->
  let w' := exec (click_run config sessionId env cellId) w in
  posts_of (trace w') = posts_of (trace w) ++ [(Cell.query cell, sessionId)]
  /\ attached_of (trace w') = attached_of (trace w) ++ [cellId].
Proof.
  intros Hf Hen. cbv zeta.
  pose proof Hen as Hdis. unfold run_button_disabled in Hen.
  apply orb_false_iff in Hen as [_ Hnb]. apply negb_false_iff in Hnb.
  assert (Hrun : exec (click_run config sessionId env cellId) w
                 = exec (executeCell config sessionId env (cells (state w)) cellId) w).
  { unfold click_run, exec, bind, get_cells. rewrite Hf.
    rewrite Hdis. reflexivity. }
  rewrite Hrun.
  pose proof (executeCell_requests config sessionId env (cells (state w)) cellId w) as Hreq.
  cbv zeta in Hreq. rewrite Hf in Hreq. fold (nonblank cell) in Hnb.
  rewrite Hnb in Hreq. simpl in Hreq.
  destruct (find_by_id _ _ _ Hf) as [_ Hid]. rewrite Hid in Hreq. exact Hreq.
Qed.

Lemma click_on_enabled_run_button_sends_one_request_witness :
  run_button_disabled (cell_of "cell-1" "SELECT * FROM users;" false) = false
  /\ posts_of (trace (exec (click_run default_config demo_session
                              (calm (Resolved ok_result)) "cell-1") fresh_page))
     = [("SELECT * FROM users;"%string, demo_session)].
Proof.
  split; [reflexivity|].
  exact (proj1 (click_on_enabled_run_button_sends_one_request default_config
                  demo_session (calm (Resolved ok_result)) "cell-1"
                  (cell_of "cell-1" "SELECT * FROM users;" false) fresh_page
                  eq_refl eq_refl)).
Defined.

Lemma slice_to_negative_end {A : Type} (e : Z) (l : list A) :
  e < 0 ->
  Z.of_nat (List.length (JS.slice 0 e l)) = Z.max (Z.of_nat (List.length l) + e) 0.
Proof.
  intros He. unfold JS.slice. cbv zeta.
  replace (0 <? 0) with false by reflexivity.
  replace (e <? 0) with true by (symmetry; apply Z.ltb_lt; exact He).
  set (len := Z.of_nat (List.length l)).
  replace (Z.to_nat (Z.min 0 len)) with 0%nat by lia. simpl skipn.
  rewrite length_firstn. fold len. lia.
Qed.

(** A configured maximum of zero or less does not switch the history
    off: the slice then takes its end from the back of the log, an append
    keeps the new entry in front and drops only [1 - H] of the oldest
    entries, so the log never gets shorter than one entry and exceeds the
    maximum. *)
Theorem history_with_nonpositive_maximum
    (H : Z) (item : QueryHistory.t) (prev : list QueryHistory.t) :
  H <= 0 ->
  hd_error (apply_history (Prepend H item) prev) = Some item
  /\ Z.of_nat (List.length (apply_history (Prepend H item) prev))
     = Z.max (Z.of_nat (List.length prev) + H) 1
  /\ H < Z.of_nat (List.length (apply_history (Prepend H item) prev)).
Proof.
  intros HH. simpl.
  pose proof (slice_to_negative_end (H - 1) prev ltac:(lia)) as Hlen.
  repeat split; lia.
Qed.

Lemma history_with_nonpositive_maximum_witness :
  0 <= 0
  /\ Z.of_nat (List.length
                 (apply_history (Prepend 0 (history_item "q3"))
                    [history_item "q2"; history_item "q1"]))
     = Z.max (Z.of_nat (List.length [history_item "q2"; history_item "q1"]) + 0) 1.
Proof.
  split; [lia|].
  exact (proj1 (proj2 (history_with_nonpositive_maximum 0 (history_item "q3")
                         [history_item "q2"; history_item "q1"] ltac:(lia)))).
Defined.

(** A response that arrives after its cell was deleted changes no cell,
    but the execution is still entered in the history and a successful
    CREATE TABLE or DROP TABLE still refreshes the tables. *)
Theorem response_for_a_deleted_cell
    (config : Config.t) (env : Env)
    (cell : Cell.t) (cellId : string) (o : Outcome) (w : World) :
  (forall c, In c (cells (state w)) -> Cell.id c <> cellId) ->
  let w' := exec (executeCell_resume config env cell cellId o) w in
  cells (state w') = cells (state w)
  /\ match o with
     | Resolved result =>
         history (state w')
         = historyItem_of cell (date_now env (awaits w)) result
           :: JS.slice 0 (Config.MAX_HISTORY_ITEMS config - 1) (history (state w))
         /\ filter is_refresh (trace w')
            = filter is_refresh (trace w)
              ++ (if refreshes_tables result (Cell.query cell) then [GetTables] else [])
     | Rejected _ => history (state w') = history (state w)
     end.
Proof.
  intros Hgone w'. subst w'. split.
  - rewrite executeCell_resume_cells. simpl.
    rewrite <- (map_id (cells (state w))) at 2.
    apply map_ext_in. intros c Hin. unfold on_cell.
    destruct (String.eqb_spec (Cell.id c) cellId) as [Heq|_]; [|reflexivity].
    exfalso. exact (Hgone c Hin Heq).
  - pose proof (executeCell_resume_history config env cell cellId o w) as Hh.
    pose proof (executeCell_resume_trace config env cell cellId o w) as [Ht _].
    destruct o as [result|error]; [|exact Hh].
    split; [exact Hh|].
    rewrite Ht, filter_app. unfold resume_events. simpl.
    destruct (refreshes_tables result (Cell.query cell)); reflexivity.
Qed.

Lemma response_for_a_deleted_cell_witness :
  cells (state (exec (executeCell_resume default_config (calm (Resolved ok_result))
                        (cell_of "cell-9" "DROP TABLE t;" false) "cell-9"
                        (Resolved ok_result)) fresh_page))
  = cells (state fresh_page)
  /\ List.length
       (history (state (exec (executeCell_resume default_config
                                (calm (Resolved ok_result))
                                (cell_of "cell-9" "DROP TABLE t;" false) "cell-9"
                                (Resolved ok_result)) fresh_page)))
     = 1%nat.
Proof.
  assert (Hgone : forall c, In c (cells (state fresh_page)) ->
                            Cell.id c <> "cell-9"%string)
    by (intros c [<-|[]]; discriminate).
  destruct (response_for_a_deleted_cell default_config (calm (Resolved ok_result))
              (cell_of "cell-9" "DROP TABLE t;" false) "cell-9" (Resolved ok_result)
              fresh_page Hgone) as [Hcells [Hhist _]].
  split; [exact Hcells|].
  rewrite Hhist. reflexivity.
Defined.

Lemma updateCellQuery_sets_only_the_query_witness :
  In (cell_of "cell-1" "SELECT 1;" false)
     (cells (state (exec (updateCellQuery "cell-1" "SELECT 1;") fresh_page)))
  /\ Cell.query (cell_of "cell-1" "SELECT 1;" false) = "SELECT 1;"%string.
Proof.
  assert (Hin : In (cell_of "cell-1" "SELECT 1;" false)
                   (cells (state (exec (updateCellQuery "cell-1" "SELECT 1;")
                                       fresh_page))))
    by (left; reflexivity).
  split; [exact Hin|].
  exact (proj1 (proj2 (proj2 (proj2 (proj2
           (updateCellQuery_sets_only_the_query "cell-1" "SELECT 1;" fresh_page)))))
           (cell_of "cell-1" "SELECT 1;" false) Hin eq_refl).
Defined.

Lemma resetDatabase_clears_only_on_success_witness :
  (forall c, In c (cells (state (exec (resetDatabase (calm (Resolved ok_result)) true)
                                      rejected_run))) ->
             Cell.result c = None)
  /\ exec (resetDatabase (calm (Resolved ok_result)) false) rejected_run
     = resumed (calm (Resolved ok_result)) rejected_run.
Proof.
  split.
  - exact (proj1 (proj2 (proj2 (proj2 (proj2
             (resetDatabase_clears_only_on_success (calm (Resolved ok_result)) true
                rejected_run)))))).
  - exact (resetDatabase_clears_only_on_success (calm (Resolved ok_result)) false
             rejected_run).
Defined.

Lemma errorResult_always_has_text_witness :
  QueryResult.error (errorResult network_error) = Some "Network Error"%string
  /\ QueryResult.error
       (errorResult {| AxiosError.response_data_error := Some ""%string;
                       AxiosError.message := None |})
     = Some "Unknown error"%string.
Proof.
  split.
  - apply (proj1 (proj2 (proj2 (proj2 (proj2 (proj2 (proj2 (proj2
             (errorResult_always_has_text network_error)))))))) "Network Error"%string).
    + intros t Ht. discriminate Ht.
    + reflexivity.
    + reflexivity.
  - apply (proj2 (proj2 (proj2 (proj2 (proj2 (proj2 (proj2 (proj2
             (errorResult_always_has_text
                {| AxiosError.response_data_error := Some ""%string;
                   AxiosError.message := None |}))))))))).
    + intros t [= <-]. reflexivity.
    + intros t Ht. discriminate Ht.
Defined.
